(** * Newsletter campaigns, issues and blocks: the server actions

    A shallow embedding of the action handlers of the newsletter writer
    (the [server] object: ten actions over three tables) and of the
    table declarations of [db/tables.ts].

    - A table is the list of its rows, in storage order.  [db.select]
      is [filter], [db.update] a [map] over the matching rows,
      [db.delete] the complementary [filter]; [db.insert] appends and
      refuses a primary key that is already stored.
    - Handlers are [async] functions that throw: they are written in a
      state-and-error monad over the database.  The state survives a
      throw (there is no transaction in the source).
    - The database also keeps a journal of the statements that reached
      it, so that "no read and no write happened" can be stated.
    - [crypto.randomUUID()] and [new Date()] are read from an explicit
      runtime environment.
    - [defineAction], [z], [db], [eq] and [and] belong to the framework;
      they are given the meaning the handlers rely on: the schema is
      checked before the handler runs, a query sees the table as it is.
    - A number goes to the database as the client sends it and comes back
      as the client reads it: an argument that is not finite is refused
      before the statement is sent, and a row that holds an integer outside
      the safe range is refused when it comes back, after the statement
      has run.  Both are a [RangeError] of the client.
    - The references between the tables never refuse a statement of these
      handlers (a parent is resolved before every insert, and only blocks,
      which nothing points to, are deleted), so they are not checked on
      insert; they are part of [consistent] below. *)

From Stdlib Require Import String List ZArith QArith Bool Lia.
Import ListNotations.
Local Open Scope string_scope.
Local Open Scope list_scope.

Set Implicit Arguments.

(** ** Values *)

(** A JavaScript [Date] that is valid: milliseconds since the epoch. *)
Definition Date := Z.

(** A JavaScript [number] other than [NaN]: a finite one, by its rational
    value, or an infinity. *)
Inductive number :=
| Finite (q : Q)
| Infinity (negative : bool).

Definition finite (n : number) : bool :=
  match n with Finite _ => true | Infinity _ => false end.

(** The whole number a [number] is, when it is one. *)
Definition whole (n : number) : option Z :=
  match n with
  | Finite q =>
      if (Qden (Qred q) =? 1)%positive then Some (Qnum (Qred q)) else None
  | Infinity _ => None
  end.

(** [Number.isInteger]. *)
Definition isInteger (n : number) : bool :=
  match whole n with Some _ => true | None => false end.

Definition MAX_SAFE_INTEGER : Z := 9007199254740991.

(** A number column ([column.number]) has integer affinity: a whole
    number that fits a signed 64-bit integer is kept as an integer, any
    other number as the real it is. *)
Definition kept_as_integer (n : number) : option Z :=
  match whole n with
  | Some v => if ((- 2 ^ 63 <? v) && (v <? 2 ^ 63 - 1))%Z then Some v else None
  | None => None
  end.

(** What the client makes of a stored number when a row comes back: an
    integer outside the safe range is refused. *)
Definition readable_number (n : number) : bool :=
  match kept_as_integer n with
  | Some v => ((- MAX_SAFE_INTEGER <=? v) && (v <=? MAX_SAFE_INTEGER))%Z
  | None => true
  end.

(** A number that can be sent and read back whatever the column keeps it
    as: finite, and not a whole number outside the safe range. *)
Definition safe_number (n : number) : bool :=
  finite n
  && match whole n with
     | Some v => (Z.abs v <=? MAX_SAFE_INTEGER)%Z
     | None => true
     end.

Definition optionally {A} (check : A -> bool) (x : option A) : bool :=
  match x with Some v => check v | None => true end.

(** [x ?? y] on a column value: keep [x] when the key is present. *)
Definition coalesce {A} (x : option A) (y : A) : A :=
  match x with Some v => v | None => y end.

(** The value a nullable column takes from a [set] object. *)
Definition assign_nullable {A} (x : option A) (old : option A) : option A :=
  match x with Some v => Some v | None => old end.

(** [x !== undefined]. *)
Definition defined {A} (x : option A) : bool :=
  match x with Some _ => true | None => false end.

(** ** The tables of [db/tables.ts]

    An [optional] column is nullable: [None] is SQL [NULL].  Next to the
    row type each table has the type of the object given to
    [update().set(...)]: one optional entry per column the handlers ever
    set, [None] meaning that the key is absent from the object. *)

Module NewsletterCampaigns.

Record row := {
  id : string;
  userId : string;
  name : string;
  description : option string;
  audienceDescription : option string;
  senderName : option string;
  senderEmail : option string;
  defaultLanguage : option string;
  createdAt : Date;
  updatedAt : Date
}.

Record set := {
  set_name : option string;
  set_description : option string;
  set_audienceDescription : option string;
  set_senderName : option string;
  set_senderEmail : option string;
  set_defaultLanguage : option string;
  set_updatedAt : option Date
}.

Definition assign (s : set) (r : row) : row :=
  {| id := id r;
     userId := userId r;
     name := coalesce (set_name s) (name r);
     description := assign_nullable (set_description s) (description r);
     audienceDescription :=
       assign_nullable (set_audienceDescription s) (audienceDescription r);
     senderName := assign_nullable (set_senderName s) (senderName r);
     senderEmail := assign_nullable (set_senderEmail s) (senderEmail r);
     defaultLanguage :=
       assign_nullable (set_defaultLanguage s) (defaultLanguage r);
     createdAt := createdAt r;
     updatedAt := coalesce (set_updatedAt s) (updatedAt r) |}.

Definition no_values (s : set) : bool :=
  negb (defined (set_name s) || defined (set_description s)
        || defined (set_audienceDescription s) || defined (set_senderName s)
        || defined (set_senderEmail s) || defined (set_defaultLanguage s)
        || defined (set_updatedAt s)).

(** A campaign holds no number. *)

Definition finite_values (r : row) : bool := true.

Definition finite_set (s : set) : bool := true.

Definition readable (r : row) : bool := true.

End NewsletterCampaigns.

Module NewsletterIssues.

Record row := {
  id : string;
  campaignId : string;
  userId : string;
  issueNumber : option number;
  subjectLine : string;
  preheaderText : option string;
  status : option string;
  scheduledAt : option Date;
  sentAt : option Date;
  createdAt : Date;
  updatedAt : Date
}.

Record set := {
  set_issueNumber : option number;
  set_subjectLine : option string;
  set_preheaderText : option string;
  set_status : option string;
  set_scheduledAt : option Date;
  set_sentAt : option Date;
  set_updatedAt : option Date
}.

Definition assign (s : set) (r : row) : row :=
  {| id := id r;
     campaignId := campaignId r;
     userId := userId r;
     issueNumber := assign_nullable (set_issueNumber s) (issueNumber r);
     subjectLine := coalesce (set_subjectLine s) (subjectLine r);
     preheaderText := assign_nullable (set_preheaderText s) (preheaderText r);
     status := assign_nullable (set_status s) (status r);
     scheduledAt := assign_nullable (set_scheduledAt s) (scheduledAt r);
     sentAt := assign_nullable (set_sentAt s) (sentAt r);
     createdAt := createdAt r;
     updatedAt := coalesce (set_updatedAt s) (updatedAt r) |}.

Definition no_values (s : set) : bool :=
  negb (defined (set_issueNumber s) || defined (set_subjectLine s)
        || defined (set_preheaderText s) || defined (set_status s)
        || defined (set_scheduledAt s) || defined (set_sentAt s)
        || defined (set_updatedAt s)).

(** The one number of an issue is [issueNumber]. *)

Definition finite_values (r : row) : bool := optionally finite (issueNumber r).

Definition finite_set (s : set) : bool := optionally finite (set_issueNumber s).

Definition readable (r : row) : bool :=
  optionally readable_number (issueNumber r).

End NewsletterIssues.

Module NewsletterBlocks.

Record row := {
  id : string;
  issueId : string;
  orderIndex : number;
  blockType : option string;
  heading : option string;
  body : option string;
  ctaLabel : option string;
  ctaUrl : option string;
  imageUrl : option string;
  metaJson : option string;
  createdAt : Date
}.

Record set := {
  set_orderIndex : option number;
  set_blockType : option string;
  set_heading : option string;
  set_body : option string;
  set_ctaLabel : option string;
  set_ctaUrl : option string;
  set_imageUrl : option string;
  set_metaJson : option string
}.

Definition assign (s : set) (r : row) : row :=
  {| id := id r;
     issueId := issueId r;
     orderIndex := coalesce (set_orderIndex s) (orderIndex r);
     blockType := assign_nullable (set_blockType s) (blockType r);
     heading := assign_nullable (set_heading s) (heading r);
     body := assign_nullable (set_body s) (body r);
     ctaLabel := assign_nullable (set_ctaLabel s) (ctaLabel r);
     ctaUrl := assign_nullable (set_ctaUrl s) (ctaUrl r);
     imageUrl := assign_nullable (set_imageUrl s) (imageUrl r);
     metaJson := assign_nullable (set_metaJson s) (metaJson r);
     createdAt := createdAt r |}.

Definition no_values (s : set) : bool :=
  negb (defined (set_orderIndex s) || defined (set_blockType s)
        || defined (set_heading s) || defined (set_body s)
        || defined (set_ctaLabel s) || defined (set_ctaUrl s)
        || defined (set_imageUrl s) || defined (set_metaJson s)).

(** The one number of a block is [orderIndex]. *)

Definition finite_values (r : row) : bool := finite (orderIndex r).

Definition finite_set (s : set) : bool := optionally finite (set_orderIndex s).

Definition readable (r : row) : bool := readable_number (orderIndex r).

End NewsletterBlocks.

(** The three tables together ([tables] of [db/tables.ts]). *)
Record Tables := {
  campaigns : list NewsletterCampaigns.row;
  issues : list NewsletterIssues.row;
  blocks : list NewsletterBlocks.row
}.

Definition no_rows : Tables :=
  {| campaigns := []; issues := []; blocks := [] |}.

(** ** The database connection *)

Inductive TableName := Campaigns | Issues | Blocks.

Inductive Stmt :=
| SELECT (t : TableName)
| INSERT (t : TableName)
| UPDATE (t : TableName)
| DELETE (t : TableName).

Record Database := {
  tables : Tables;
  journal : list Stmt
}.

Definition issue_stmt (s : Stmt) (d : Database) : Database :=
  {| tables := tables d; journal := journal d ++ [s] |}.

Definition with_tables (t : Tables) (d : Database) : Database :=
  {| tables := t; journal := journal d |}.

(** ** Failures *)

Inductive ErrorCode := UNAUTHORIZED | NOT_FOUND.

(** Why the client refuses a number: an argument that is not finite, or
    a stored integer that is not safe. *)
Inductive Refusal := NotFinite | UnsafeInteger.

(** What a call can throw: the errors of the handlers, the input error of
    [defineAction], the primary key of a table refusing a row, the builder
    refusing an empty [set], and the [RangeError] of the client. *)
Inductive Failure :=
| ActionError (code : ErrorCode) (message : string)
| ActionInputError
| UniqueConstraint (t : TableName)
| NoValuesToSet
| RangeError (why : Refusal).

(** ** The monad of the handlers *)

Definition Action (A : Type) : Type := Database -> Database * (Failure + A).

Definition ret {A} (a : A) : Action A := fun d => (d, inr a).

Definition throw {A} (e : Failure) : Action A := fun d => (d, inl e).

Definition bind {A B} (m : Action A) (k : A -> Action B) : Action B :=
  fun d =>
    match m d with
    | (d', inr a) => k a d'
    | (d', inl e) => (d', inl e)
    end.

Notation "x <- m ;; k" := (bind m (fun x => k))
  (at level 61, m at next level, right associativity).
Notation "m ;;; k" := (bind m (fun _ => k))
  (at level 61, right associativity).

(** ** A table as the connection sees it *)

Record Table (R S : Type) := {
  table_name : TableName;
  rows : Tables -> list R;
  with_rows : list R -> Tables -> Tables;
  primaryKey : R -> string;
  assign : S -> R -> R;
  no_values : S -> bool;
  finite_values : R -> bool;
  finite_set : S -> bool;
  readable : R -> bool
}.

(** The three table objects. *)

Definition campaigns_table : Table NewsletterCampaigns.row NewsletterCampaigns.set :=
  {| table_name := Campaigns;
     rows := campaigns;
     with_rows := fun l t =>
       {| campaigns := l; issues := issues t; blocks := blocks t |};
     primaryKey := NewsletterCampaigns.id;
     assign := NewsletterCampaigns.assign;
     no_values := NewsletterCampaigns.no_values;
     finite_values := NewsletterCampaigns.finite_values;
     finite_set := NewsletterCampaigns.finite_set;
     readable := NewsletterCampaigns.readable |}.

Definition issues_table : Table NewsletterIssues.row NewsletterIssues.set :=
  {| table_name := Issues;
     rows := issues;
     with_rows := fun l t =>
       {| campaigns := campaigns t; issues := l; blocks := blocks t |};
     primaryKey := NewsletterIssues.id;
     assign := NewsletterIssues.assign;
     no_values := NewsletterIssues.no_values;
     finite_values := NewsletterIssues.finite_values;
     finite_set := NewsletterIssues.finite_set;
     readable := NewsletterIssues.readable |}.

Definition blocks_table : Table NewsletterBlocks.row NewsletterBlocks.set :=
  {| table_name := Blocks;
     rows := blocks;
     with_rows := fun l t =>
       {| campaigns := campaigns t; issues := issues t; blocks := l |};
     primaryKey := NewsletterBlocks.id;
     assign := NewsletterBlocks.assign;
     no_values := NewsletterBlocks.no_values;
     finite_values := NewsletterBlocks.finite_values;
     finite_set := NewsletterBlocks.finite_set;
     readable := NewsletterBlocks.readable |}.

(** ** The query builder ([db], [eq], [and] of [astro:db])

    Every statement that reaches the database is journalled.  The rows a
    statement returns come back through the client, which refuses them all
    if one holds an integer that is not safe.
    - [select().from(T).where(c)] returns the rows of [T] that satisfy [c],
      in storage order.
    - [insert(T).values(v).returning()] appends [v] and returns it; the
      primary key column refuses a key that is already stored.  The row is
      stored before it comes back.
    - [update(T).set(s).where(c).returning()] assigns the keys of [s] on
      every row that satisfies [c] and returns those rows as updated; an
      object without keys is refused by the builder, before any statement.
      The rows are updated before they come back.
    - [delete(T).where(c)] removes the rows that satisfy [c]; its result
      carries their number ([rowsAffected]) and no row.
    An argument that is not finite is refused before the statement is
    sent.  A text comes back as it is stored; the client cuts a text it
    reads at the first NUL character, so what is said of a returned text
    is said of text without that character. *)

Module db.

Definition eq {R} (column : R -> string) (value : string) : R -> bool :=
  fun r => String.eqb (column r) value.

Definition and {R} (conditions : list (R -> bool)) : R -> bool :=
  fun r => forallb (fun c => c r) conditions.

Definition returned {R S} (T : Table R S) (l : list R) : Failure + list R :=
  if forallb (readable T) l then inr l else inl (RangeError UnsafeInteger).

Definition select {R S} (T : Table R S) (where_ : R -> bool)
  : Action (list R) :=
  fun d =>
    (issue_stmt (SELECT (table_name T)) d,
     returned T (filter where_ (rows T (tables d)))).

Definition insert {R S} (T : Table R S) (values : R) : Action (list R) :=
  fun d =>
    if negb (finite_values T values) then (d, inl (RangeError NotFinite))
    else
      let d1 := issue_stmt (INSERT (table_name T)) d in
      if existsb (String.eqb (primaryKey T values))
                 (map (primaryKey T) (rows T (tables d)))
      then (d1, inl (UniqueConstraint (table_name T)))
      else
        (with_tables (with_rows T (rows T (tables d) ++ [values]) (tables d))
           d1,
         returned T [values]).

Definition update {R S} (T : Table R S) (s : S) (where_ : R -> bool)
  : Action (list R) :=
  fun d =>
    if no_values T s then (d, inl NoValuesToSet)
    else if negb (finite_set T s) then (d, inl (RangeError NotFinite))
    else
      let d1 := issue_stmt (UPDATE (table_name T)) d in
      (with_tables
         (with_rows T
            (map (fun r => if where_ r then assign T s r else r)
                 (rows T (tables d)))
            (tables d)) d1,
       returned T (map (assign T s) (filter where_ (rows T (tables d))))).

Definition delete {R S} (T : Table R S) (where_ : R -> bool) : Action nat :=
  fun d =>
    let d1 := issue_stmt (DELETE (table_name T)) d in
    (with_tables
       (with_rows T (filter (fun r => negb (where_ r)) (rows T (tables d)))
          (tables d)) d1,
     inr (length (filter where_ (rows T (tables d))))).

End db.

(** [const [x] = rows]: the first row, [undefined] when there is none. *)
Definition first {R} (l : list R) : option R := hd_error l.

(** ** The request context and the runtime *)

Module App.

Record User := { id : string }.

Record Locals := { user : option User }.

End App.

Record ActionAPIContext := { locals : option App.Locals }.

(** What [crypto.randomUUID()] and [new Date()] return during the call. *)
Record Runtime := {
  randomUUID : string;
  now : Date
}.

(** ** Schemas ([z] of [astro:schema])

    Inputs are taken at the TypeScript type the schema infers: a required
    key is there and every key has its type.  What is left to check is what
    the type does not say: minimal lengths, integrality and refinements. *)

Module z.

Definition string (s : String.string) : bool := true.

Definition min (n : nat) (s : String.string) : bool :=
  (n <=? String.length s)%nat.

Definition int (x : number) : bool := isInteger x.

Definition number (x : number) : bool := true.

Definition date (x : Date) : bool := true.

Definition optional {A} (check : A -> bool) (x : option A) : bool :=
  match x with Some v => check v | None => true end.

End z.

(** [defineAction({ input, handler })] of [astro:actions]: the input is
    parsed against the schema first; an input the schema rejects raises an
    input error and the handler is not called. *)
Definition defineAction {I O}
  (input : I -> bool) (handler : Runtime -> I -> ActionAPIContext -> Action O)
  : Runtime -> I -> ActionAPIContext -> Action O :=
  fun rt i context =>
    if input i then handler rt i context else throw ActionInputError.

(** ** Guards *)

Definition requireUser (context : ActionAPIContext) : Action App.User :=
  let user :=
    match locals context with Some l => App.user l | None => None end in
  match user with
  | None =>
      throw (ActionError UNAUTHORIZED
               "You must be signed in to perform this action.")
  | Some u => ret u
  end.

Definition getOwnedCampaign (campaignId userId : string)
  : Action NewsletterCampaigns.row :=
  found <- db.select campaigns_table
             (db.and [db.eq NewsletterCampaigns.id campaignId;
                      db.eq NewsletterCampaigns.userId userId]) ;;
  match first found with
  | None => throw (ActionError NOT_FOUND "Campaign not found.")
  | Some campaign => ret campaign
  end.

Definition getOwnedIssue (issueId userId : string)
  : Action NewsletterIssues.row :=
  found <- db.select issues_table
             (db.and [db.eq NewsletterIssues.id issueId;
                      db.eq NewsletterIssues.userId userId]) ;;
  match first found with
  | None => throw (ActionError NOT_FOUND "Newsletter issue not found.")
  | Some issue => ret issue
  end.

(** ** What the actions return *)

(** [{ success, data }]; for a single row [data] is [{ campaign }],
    [{ issue }] or [{ block }], taken here as the row itself
    ([None]: [undefined]). *)
Record Reply (D : Type) := { success : bool; data : D }.

(** [{ items, total }]. *)
Record Listing (R : Type) := { items : list R; total : nat }.

(** [{ success }] alone. *)
Record Ack := { ack_success : bool }.

(** ** The actions *)

Module server.

Module createCampaign.

Record input := {
  name : string;
  description : option string;
  audienceDescription : option string;
  senderName : option string;
  senderEmail : option string;
  defaultLanguage : option string
}.

Definition schema (i : input) : bool :=
  z.min 1 (name i)
  && z.optional z.string (description i)
  && z.optional z.string (audienceDescription i)
  && z.optional z.string (senderName i)
  && z.optional z.string (senderEmail i)
  && z.optional z.string (defaultLanguage i).

Definition handler (rt : Runtime) (i : input) (context : ActionAPIContext)
  : Action (Reply (option NewsletterCampaigns.row)) :=
  user <- requireUser context ;;
  let now := now rt in
  inserted <- db.insert campaigns_table
    {| NewsletterCampaigns.id := randomUUID rt;
       NewsletterCampaigns.userId := App.id user;
       NewsletterCampaigns.name := name i;
       NewsletterCampaigns.description := description i;
       NewsletterCampaigns.audienceDescription := audienceDescription i;
       NewsletterCampaigns.senderName := senderName i;
       NewsletterCampaigns.senderEmail := senderEmail i;
       NewsletterCampaigns.defaultLanguage := defaultLanguage i;
       NewsletterCampaigns.createdAt := now;
       NewsletterCampaigns.updatedAt := now |} ;;
  ret {| success := true; data := first inserted |}.

Definition action := defineAction schema handler.

End createCampaign.

Module updateCampaign.

Record input := {
  id : string;
  name : option string;
  description : option string;
  audienceDescription : option string;
  senderName : option string;
  senderEmail : option string;
  defaultLanguage : option string
}.

Definition refine (i : input) : bool :=
  defined (name i)
  || defined (description i)
  || defined (audienceDescription i)
  || defined (senderName i)
  || defined (senderEmail i)
  || defined (defaultLanguage i).

Definition schema (i : input) : bool :=
  (z.min 1 (id i)
   && z.optional (z.min 1) (name i)
   && z.optional z.string (description i)
   && z.optional z.string (audienceDescription i)
   && z.optional z.string (senderName i)
   && z.optional z.string (senderEmail i)
   && z.optional z.string (defaultLanguage i))
  && refine i.

Definition handler (rt : Runtime) (i : input) (context : ActionAPIContext)
  : Action (Reply (option NewsletterCampaigns.row)) :=
  user <- requireUser context ;;
  getOwnedCampaign (id i) (App.id user) ;;;
  updated <- db.update campaigns_table
    {| NewsletterCampaigns.set_name := name i;
       NewsletterCampaigns.set_description := description i;
       NewsletterCampaigns.set_audienceDescription := audienceDescription i;
       NewsletterCampaigns.set_senderName := senderName i;
       NewsletterCampaigns.set_senderEmail := senderEmail i;
       NewsletterCampaigns.set_defaultLanguage := defaultLanguage i;
       NewsletterCampaigns.set_updatedAt := Some (now rt) |}
    (db.eq NewsletterCampaigns.id (id i)) ;;
  ret {| success := true; data := first updated |}.

Definition action := defineAction schema handler.

End updateCampaign.

Module listCampaigns.

(** [z.object({}).optional()]: nothing to read from the input. *)
Definition input := unit.

Definition schema (i : input) : bool := true.

Definition handler (rt : Runtime) (i : input) (context : ActionAPIContext)
  : Action (Reply (Listing NewsletterCampaigns.row)) :=
  user <- requireUser context ;;
  campaigns <- db.select campaigns_table
                 (db.eq NewsletterCampaigns.userId (App.id user)) ;;
  ret {| success := true;
         data := {| items := campaigns; total := length campaigns |} |}.

Definition action := defineAction schema handler.

End listCampaigns.

Module createIssue.

Record input := {
  campaignId : string;
  issueNumber : option number;
  subjectLine : string;
  preheaderText : option string;
  status : option string;
  scheduledAt : option Date;
  sentAt : option Date
}.

Definition schema (i : input) : bool :=
  z.min 1 (campaignId i)
  && z.optional z.number (issueNumber i)
  && z.min 1 (subjectLine i)
  && z.optional z.string (preheaderText i)
  && z.optional z.string (status i)
  && z.optional z.date (scheduledAt i)
  && z.optional z.date (sentAt i).

Definition handler (rt : Runtime) (i : input) (context : ActionAPIContext)
  : Action (Reply (option NewsletterIssues.row)) :=
  user <- requireUser context ;;
  getOwnedCampaign (campaignId i) (App.id user) ;;;
  let now := now rt in
  inserted <- db.insert issues_table
    {| NewsletterIssues.id := randomUUID rt;
       NewsletterIssues.campaignId := campaignId i;
       NewsletterIssues.userId := App.id user;
       NewsletterIssues.issueNumber := issueNumber i;
       NewsletterIssues.subjectLine := subjectLine i;
       NewsletterIssues.preheaderText := preheaderText i;
       NewsletterIssues.status := status i;
       NewsletterIssues.scheduledAt := scheduledAt i;
       NewsletterIssues.sentAt := sentAt i;
       NewsletterIssues.createdAt := now;
       NewsletterIssues.updatedAt := now |} ;;
  ret {| success := true; data := first inserted |}.

Definition action := defineAction schema handler.

End createIssue.

Module updateIssue.

Record input := {
  id : string;
  campaignId : string;
  issueNumber : option number;
  subjectLine : option string;
  preheaderText : option string;
  status : option string;
  scheduledAt : option Date;
  sentAt : option Date
}.

Definition refine (i : input) : bool :=
  defined (issueNumber i)
  || defined (subjectLine i)
  || defined (preheaderText i)
  || defined (status i)
  || defined (scheduledAt i)
  || defined (sentAt i).

Definition schema (i : input) : bool :=
  (z.min 1 (id i)
   && z.min 1 (campaignId i)
   && z.optional z.number (issueNumber i)
   && z.optional z.string (subjectLine i)
   && z.optional z.string (preheaderText i)
   && z.optional z.string (status i)
   && z.optional z.date (scheduledAt i)
   && z.optional z.date (sentAt i))
  && refine i.

Definition handler (rt : Runtime) (i : input) (context : ActionAPIContext)
  : Action (Reply (option NewsletterIssues.row)) :=
  user <- requireUser context ;;
  getOwnedCampaign (campaignId i) (App.id user) ;;;
  found <- db.select issues_table
             (db.and [db.eq NewsletterIssues.id (id i);
                      db.eq NewsletterIssues.campaignId (campaignId i);
                      db.eq NewsletterIssues.userId (App.id user)]) ;;
  match first found with
  | None => throw (ActionError NOT_FOUND "Issue not found.")
  | Some existing =>
      updated <- db.update issues_table
        {| NewsletterIssues.set_issueNumber := issueNumber i;
           NewsletterIssues.set_subjectLine := subjectLine i;
           NewsletterIssues.set_preheaderText := preheaderText i;
           NewsletterIssues.set_status := status i;
           NewsletterIssues.set_scheduledAt := scheduledAt i;
           NewsletterIssues.set_sentAt := sentAt i;
           NewsletterIssues.set_updatedAt := Some (now rt) |}
        (db.eq NewsletterIssues.id (id i)) ;;
      ret {| success := true; data := first updated |}
  end.

Definition action := defineAction schema handler.

End updateIssue.

Module listIssues.

Record input := { campaignId : string }.

Definition schema (i : input) : bool := z.min 1 (campaignId i).

Definition handler (rt : Runtime) (i : input) (context : ActionAPIContext)
  : Action (Reply (Listing NewsletterIssues.row)) :=
  user <- requireUser context ;;
  getOwnedCampaign (campaignId i) (App.id user) ;;;
  issues <- db.select issues_table
              (db.and [db.eq NewsletterIssues.campaignId (campaignId i);
                       db.eq NewsletterIssues.userId (App.id user)]) ;;
  ret {| success := true;
         data := {| items := issues; total := length issues |} |}.

Definition action := defineAction schema handler.

End listIssues.

Module createBlock.

Record input := {
  issueId : string;
  orderIndex : option number;
  blockType : option string;
  heading : option string;
  body : option string;
  ctaLabel : option string;
  ctaUrl : option string;
  imageUrl : option string;
  metaJson : option string
}.

Definition schema (i : input) : bool :=
  z.min 1 (issueId i)
  && z.optional z.int (orderIndex i)
  && z.optional z.string (blockType i)
  && z.optional z.string (heading i)
  && z.optional z.string (body i)
  && z.optional z.string (ctaLabel i)
  && z.optional z.string (ctaUrl i)
  && z.optional z.string (imageUrl i)
  && z.optional z.string (metaJson i).

Definition handler (rt : Runtime) (i : input) (context : ActionAPIContext)
  : Action (Reply (option NewsletterBlocks.row)) :=
  user <- requireUser context ;;
  issue <- getOwnedIssue (issueId i) (App.id user) ;;
  getOwnedCampaign (NewsletterIssues.campaignId issue) (App.id user) ;;;
  inserted <- db.insert blocks_table
    {| NewsletterBlocks.id := randomUUID rt;
       NewsletterBlocks.issueId := issueId i;
       NewsletterBlocks.orderIndex := coalesce (orderIndex i) (Finite 1);
       NewsletterBlocks.blockType := blockType i;
       NewsletterBlocks.heading := heading i;
       NewsletterBlocks.body := body i;
       NewsletterBlocks.ctaLabel := ctaLabel i;
       NewsletterBlocks.ctaUrl := ctaUrl i;
       NewsletterBlocks.imageUrl := imageUrl i;
       NewsletterBlocks.metaJson := metaJson i;
       NewsletterBlocks.createdAt := now rt |} ;;
  ret {| success := true; data := first inserted |}.

Definition action := defineAction schema handler.

End createBlock.

Module updateBlock.

Record input := {
  id : string;
  issueId : string;
  orderIndex : option number;
  blockType : option string;
  heading : option string;
  body : option string;
  ctaLabel : option string;
  ctaUrl : option string;
  imageUrl : option string;
  metaJson : option string
}.

Definition refine (i : input) : bool :=
  defined (orderIndex i)
  || defined (blockType i)
  || defined (heading i)
  || defined (body i)
  || defined (ctaLabel i)
  || defined (ctaUrl i)
  || defined (imageUrl i)
  || defined (metaJson i).

Definition schema (i : input) : bool :=
  (z.min 1 (id i)
   && z.min 1 (issueId i)
   && z.optional z.int (orderIndex i)
   && z.optional z.string (blockType i)
   && z.optional z.string (heading i)
   && z.optional z.string (body i)
   && z.optional z.string (ctaLabel i)
   && z.optional z.string (ctaUrl i)
   && z.optional z.string (imageUrl i)
   && z.optional z.string (metaJson i))
  && refine i.

Definition handler (rt : Runtime) (i : input) (context : ActionAPIContext)
  : Action (Reply (option NewsletterBlocks.row)) :=
  user <- requireUser context ;;
  issue <- getOwnedIssue (issueId i) (App.id user) ;;
  getOwnedCampaign (NewsletterIssues.campaignId issue) (App.id user) ;;;
  found <- db.select blocks_table
             (db.and [db.eq NewsletterBlocks.id (id i);
                      db.eq NewsletterBlocks.issueId (issueId i)]) ;;
  match first found with
  | None => throw (ActionError NOT_FOUND "Block not found.")
  | Some existing =>
      updated <- db.update blocks_table
        {| NewsletterBlocks.set_orderIndex := orderIndex i;
           NewsletterBlocks.set_blockType := blockType i;
           NewsletterBlocks.set_heading := heading i;
           NewsletterBlocks.set_body := body i;
           NewsletterBlocks.set_ctaLabel := ctaLabel i;
           NewsletterBlocks.set_ctaUrl := ctaUrl i;
           NewsletterBlocks.set_imageUrl := imageUrl i;
           NewsletterBlocks.set_metaJson := metaJson i |}
        (db.eq NewsletterBlocks.id (id i)) ;;
      ret {| success := true; data := first updated |}
  end.

Definition action := defineAction schema handler.

End updateBlock.

Module deleteBlock.

Record input := {
  id : string;
  issueId : string
}.

Definition schema (i : input) : bool :=
  z.min 1 (id i) && z.min 1 (issueId i).

Definition handler (rt : Runtime) (i : input) (context : ActionAPIContext)
  : Action Ack :=
  user <- requireUser context ;;
  issue <- getOwnedIssue (issueId i) (App.id user) ;;
  getOwnedCampaign (NewsletterIssues.campaignId issue) (App.id user) ;;;
  rowsAffected <- db.delete blocks_table
                    (db.and [db.eq NewsletterBlocks.id (id i);
                             db.eq NewsletterBlocks.issueId (issueId i)]) ;;
  if (rowsAffected =? 0)%nat
  then throw (ActionError NOT_FOUND "Block not found.")
  else ret {| ack_success := true |}.

Definition action := defineAction schema handler.

End deleteBlock.

Module listBlocks.

Record input := { issueId : string }.

Definition schema (i : input) : bool := z.min 1 (issueId i).

Definition handler (rt : Runtime) (i : input) (context : ActionAPIContext)
  : Action (Reply (Listing NewsletterBlocks.row)) :=
  user <- requireUser context ;;
  issue <- getOwnedIssue (issueId i) (App.id user) ;;
  getOwnedCampaign (NewsletterIssues.campaignId issue) (App.id user) ;;;
  blocks <- db.select blocks_table
              (db.eq NewsletterBlocks.issueId (issueId i)) ;;
  ret {| success := true;
         data := {| items := blocks; total := length blocks |} |}.

Definition action := defineAction schema handler.

End listBlocks.

End server.

(** ** One entry point for the ten actions *)

Inductive Request :=
| CreateCampaign (i : server.createCampaign.input)
| UpdateCampaign (i : server.updateCampaign.input)
| ListCampaigns (i : server.listCampaigns.input)
| CreateIssue (i : server.createIssue.input)
| UpdateIssue (i : server.updateIssue.input)
| ListIssues (i : server.listIssues.input)
| CreateBlock (i : server.createBlock.input)
| UpdateBlock (i : server.updateBlock.input)
| DeleteBlock (i : server.deleteBlock.input)
| ListBlocks (i : server.listBlocks.input).

Inductive Response :=
| OneCampaign (r : Reply (option NewsletterCampaigns.row))
| ManyCampaigns (r : Reply (Listing NewsletterCampaigns.row))
| OneIssue (r : Reply (option NewsletterIssues.row))
| ManyIssues (r : Reply (Listing NewsletterIssues.row))
| OneBlock (r : Reply (option NewsletterBlocks.row))
| ManyBlocks (r : Reply (Listing NewsletterBlocks.row))
| Done (r : Ack).

Definition fmap {A B} (f : A -> B) (m : Action A) : Action B :=
  a <- m ;; ret (f a).

Definition call (rt : Runtime) (context : ActionAPIContext) (q : Request)
  : Action Response :=
  match q with
  | CreateCampaign i => fmap OneCampaign (server.createCampaign.action rt i context)
  | UpdateCampaign i => fmap OneCampaign (server.updateCampaign.action rt i context)
  | ListCampaigns i => fmap ManyCampaigns (server.listCampaigns.action rt i context)
  | CreateIssue i => fmap OneIssue (server.createIssue.action rt i context)
  | UpdateIssue i => fmap OneIssue (server.updateIssue.action rt i context)
  | ListIssues i => fmap ManyIssues (server.listIssues.action rt i context)
  | CreateBlock i => fmap OneBlock (server.createBlock.action rt i context)
  | UpdateBlock i => fmap OneBlock (server.updateBlock.action rt i context)
  | DeleteBlock i => fmap Done (server.deleteBlock.action rt i context)
  | ListBlocks i => fmap ManyBlocks (server.listBlocks.action rt i context)
  end.

(** Whether the input of a request passes the schema of its action. *)
Definition accepted (q : Request) : bool :=
  match q with
  | CreateCampaign i => server.createCampaign.schema i
  | UpdateCampaign i => server.updateCampaign.schema i
  | ListCampaigns i => server.listCampaigns.schema i
  | CreateIssue i => server.createIssue.schema i
  | UpdateIssue i => server.updateIssue.schema i
  | ListIssues i => server.listIssues.schema i
  | CreateBlock i => server.createBlock.schema i
  | UpdateBlock i => server.updateBlock.schema i
  | DeleteBlock i => server.deleteBlock.schema i
  | ListBlocks i => server.listBlocks.schema i
  end.

(** ** Vocabulary of the statements *)

(** The user of the session, if any ([context.locals?.user]). *)
Definition session (context : ActionAPIContext) : option App.User :=
  match locals context with
  | Some l => App.user l
  | None => None
  end.

Definition unauthorized : Failure :=
  ActionError UNAUTHORIZED "You must be signed in to perform this action.".

Definition owns_campaign (campaignId userId : string)
  (c : NewsletterCampaigns.row) : Prop :=
  NewsletterCampaigns.id c = campaignId /\ NewsletterCampaigns.userId c = userId.

Definition owns_issue (issueId userId : string)
  (i : NewsletterIssues.row) : Prop :=
  NewsletterIssues.id i = issueId /\ NewsletterIssues.userId i = userId.

(** The filters of the handlers, by name. *)

Definition campaign_filter (campaignId userId : string)
  : NewsletterCampaigns.row -> bool :=
  db.and [db.eq NewsletterCampaigns.id campaignId;
          db.eq NewsletterCampaigns.userId userId].

Definition issue_filter (issueId userId : string)
  : NewsletterIssues.row -> bool :=
  db.and [db.eq NewsletterIssues.id issueId;
          db.eq NewsletterIssues.userId userId].

Definition issue_under (issueId campaignId userId : string)
  : NewsletterIssues.row -> bool :=
  db.and [db.eq NewsletterIssues.id issueId;
          db.eq NewsletterIssues.campaignId campaignId;
          db.eq NewsletterIssues.userId userId].

Definition block_under (blockId issueId : string)
  : NewsletterBlocks.row -> bool :=
  db.and [db.eq NewsletterBlocks.id blockId;
          db.eq NewsletterBlocks.issueId issueId].

(** The objects the update handlers pass to [set]. *)

Definition campaign_set (rt : Runtime) (i : server.updateCampaign.input)
  : NewsletterCampaigns.set :=
  {| NewsletterCampaigns.set_name := server.updateCampaign.name i;
     NewsletterCampaigns.set_description := server.updateCampaign.description i;
     NewsletterCampaigns.set_audienceDescription :=
       server.updateCampaign.audienceDescription i;
     NewsletterCampaigns.set_senderName := server.updateCampaign.senderName i;
     NewsletterCampaigns.set_senderEmail := server.updateCampaign.senderEmail i;
     NewsletterCampaigns.set_defaultLanguage :=
       server.updateCampaign.defaultLanguage i;
     NewsletterCampaigns.set_updatedAt := Some (now rt) |}.

Definition issue_set (rt : Runtime) (i : server.updateIssue.input)
  : NewsletterIssues.set :=
  {| NewsletterIssues.set_issueNumber := server.updateIssue.issueNumber i;
     NewsletterIssues.set_subjectLine := server.updateIssue.subjectLine i;
     NewsletterIssues.set_preheaderText := server.updateIssue.preheaderText i;
     NewsletterIssues.set_status := server.updateIssue.status i;
     NewsletterIssues.set_scheduledAt := server.updateIssue.scheduledAt i;
     NewsletterIssues.set_sentAt := server.updateIssue.sentAt i;
     NewsletterIssues.set_updatedAt := Some (now rt) |}.

Definition block_set (i : server.updateBlock.input) : NewsletterBlocks.set :=
  {| NewsletterBlocks.set_orderIndex := server.updateBlock.orderIndex i;
     NewsletterBlocks.set_blockType := server.updateBlock.blockType i;
     NewsletterBlocks.set_heading := server.updateBlock.heading i;
     NewsletterBlocks.set_body := server.updateBlock.body i;
     NewsletterBlocks.set_ctaLabel := server.updateBlock.ctaLabel i;
     NewsletterBlocks.set_ctaUrl := server.updateBlock.ctaUrl i;
     NewsletterBlocks.set_imageUrl := server.updateBlock.imageUrl i;
     NewsletterBlocks.set_metaJson := server.updateBlock.metaJson i |}.

(** The rows the insert handlers pass to [values]. *)

Definition new_issue (rt : Runtime) (user : App.User)
  (i : server.createIssue.input) : NewsletterIssues.row :=
  {| NewsletterIssues.id := randomUUID rt;
     NewsletterIssues.campaignId := server.createIssue.campaignId i;
     NewsletterIssues.userId := App.id user;
     NewsletterIssues.issueNumber := server.createIssue.issueNumber i;
     NewsletterIssues.subjectLine := server.createIssue.subjectLine i;
     NewsletterIssues.preheaderText := server.createIssue.preheaderText i;
     NewsletterIssues.status := server.createIssue.status i;
     NewsletterIssues.scheduledAt := server.createIssue.scheduledAt i;
     NewsletterIssues.sentAt := server.createIssue.sentAt i;
     NewsletterIssues.createdAt := now rt;
     NewsletterIssues.updatedAt := now rt |}.

Definition new_block (rt : Runtime) (i : server.createBlock.input)
  : NewsletterBlocks.row :=
  {| NewsletterBlocks.id := randomUUID rt;
     NewsletterBlocks.issueId := server.createBlock.issueId i;
     NewsletterBlocks.orderIndex :=
       coalesce (server.createBlock.orderIndex i) (Finite 1);
     NewsletterBlocks.blockType := server.createBlock.blockType i;
     NewsletterBlocks.heading := server.createBlock.heading i;
     NewsletterBlocks.body := server.createBlock.body i;
     NewsletterBlocks.ctaLabel := server.createBlock.ctaLabel i;
     NewsletterBlocks.ctaUrl := server.createBlock.ctaUrl i;
     NewsletterBlocks.imageUrl := server.createBlock.imageUrl i;
     NewsletterBlocks.metaJson := server.createBlock.metaJson i;
     NewsletterBlocks.createdAt := now rt |}.

(** What the connection does to a table, by name. *)

Definition key_taken {R} (pk : R -> string) (key : string) (l : list R)
  : bool :=
  existsb (String.eqb key) (map pk l).

Definition assign_where {R} (pk : R -> string) (key : string) (f : R -> R)
  (l : list R) : list R :=
  map (fun r => if db.eq pk key r then f r else r) l.

(** Consistency and reachability. *)

(** What the primary keys and the references promise, and what the
    handlers maintain: keys are unique, every issue carries the owner of a
    stored campaign it points to, every block points to a stored issue. *)
Record consistent (t : Tables) : Prop := {
  campaigns_pk : NoDup (map NewsletterCampaigns.id (campaigns t));
  issues_pk : NoDup (map NewsletterIssues.id (issues t));
  blocks_pk : NoDup (map NewsletterBlocks.id (blocks t));
  issues_chain :
    forall i, In i (issues t) ->
      exists c, In c (campaigns t)
                /\ owns_campaign (NewsletterIssues.campaignId i)
                                 (NewsletterIssues.userId i) c;
  blocks_fk :
    forall b, In b (blocks t) ->
      exists i, In i (issues t)
                /\ NewsletterIssues.id i = NewsletterBlocks.issueId b
}.

(** The databases the actions can produce from the empty one. *)
Inductive reachable : Database -> Prop :=
| reachable_empty : reachable {| tables := no_rows; journal := [] |}
| reachable_call rt context q d :
    reachable d -> reachable (fst (call rt context q d)).

(** Partial updates, as a relation between a row and its new state. *)

(** An input field against a column, before and after an update: an absent
    field leaves the column as it was, a present one is stored. *)
Definition field_applied {A} (given : option A) (before after : A) : Prop :=
  (given = None -> after = before) /\ (forall v, given = Some v -> after = v).

Definition nullable_applied {A} (given : option A) (before after : option A)
  : Prop :=
  (given = None -> after = before)
  /\ (forall v, given = Some v -> after = Some v).




(** A table before and after an update that targets the rows with key
    [key]: rows stay in place, a targeted row is related by [patched] to
    what it was, every other row is what it was. *)
Definition updated_in_place {R} (pk : R -> string) (key : string)
  (patched : R -> R -> Prop) (before after : list R) : Prop :=
  Forall2 (fun b a => (pk b = key -> patched b a) /\ (pk b <> key -> a = b))
          before after.


(** ** What comes back from the database *)

(** A select for one row: the first row that came back, [missing] when
    none did, the refusal of the client when it refused them. *)
Definition one_row {R S} (T : Table R S) (where_ : R -> bool)
  (missing : Failure) (t : Tables) : Failure + R :=
  match db.returned T (filter where_ (rows T t)) with
  | inl e => inl e
  | inr found =>
      match first found with
      | Some r => inr r
      | None => inl missing
      end
  end.

Definition resolve_issue (issueId userId : string) (t : Tables)
  : Failure + NewsletterIssues.row :=
  one_row issues_table (issue_filter issueId userId)
    (ActionError NOT_FOUND "Newsletter issue not found.") t.

(** The reply built from the rows of [returning()], and from the rows of a
    listing. *)

Definition one_reply {R S} (T : Table R S) (l : list R)
  : Failure + Reply (option R) :=
  match db.returned T l with
  | inl e => inl e
  | inr back => inr {| success := true; data := first back |}
  end.

Definition listing_reply {R S} (T : Table R S) (l : list R)
  : Failure + Reply (Listing R) :=
  match db.returned T l with
  | inl e => inl e
  | inr back =>
      inr {| success := true;
             data := {| items := back; total := length back |} |}
  end.

(** Rows whose number can be sent and read back. *)

Definition issue_safe (i : NewsletterIssues.row) : bool :=
  optionally safe_number (NewsletterIssues.issueNumber i).


(** ** Sample data *)

Definition stranger : ActionAPIContext := {| locals := None |}.

Definition alice : App.User := {| App.id := "alice" |}.

Definition signed_in (u : App.User) : ActionAPIContext :=
  {| locals := Some {| App.user := Some u |} |}.

Definition midnight : Runtime :=
  {| randomUUID := "6f1c"; now := 1700000000000%Z |}.

Definition runtime (uuid : string) (t : Date) : Runtime :=
  {| randomUUID := uuid; now := t |}.

Definition empty_database : Database :=
  {| tables := no_rows; journal := [] |}.

Definition nameless_campaign : server.createCampaign.input :=
  {| server.createCampaign.name := "";
     server.createCampaign.description := None;
     server.createCampaign.audienceDescription := None;
     server.createCampaign.senderName := None;
     server.createCampaign.senderEmail := None;
     server.createCampaign.defaultLanguage := None |}.

Definition weekly_dev_tips : server.createCampaign.input :=
  {| server.createCampaign.name := "Weekly Dev Tips";
     server.createCampaign.description := None;
     server.createCampaign.audienceDescription := None;
     server.createCampaign.senderName := None;
     server.createCampaign.senderEmail := None;
     server.createCampaign.defaultLanguage := None |}.

Definition issue_one : server.createIssue.input :=
  {| server.createIssue.campaignId := "c1";
     server.createIssue.issueNumber := None;
     server.createIssue.subjectLine := "Issue 1";
     server.createIssue.preheaderText := None;
     server.createIssue.status := None;
     server.createIssue.scheduledAt := None;
     server.createIssue.sentAt := None |}.

Definition plain_block : server.createBlock.input :=
  {| server.createBlock.issueId := "i1";
     server.createBlock.orderIndex := None;
     server.createBlock.blockType := None;
     server.createBlock.heading := None;
     server.createBlock.body := Some "Welcome.";
     server.createBlock.ctaLabel := None;
     server.createBlock.ctaUrl := None;
     server.createBlock.imageUrl := None;
     server.createBlock.metaJson := None |}.

(** The scenario of the specification, call after call: a campaign, an
    issue under it, a block in the issue; then a second campaign. *)

Definition with_campaign : Database :=
  fst (call (runtime "c1" 10%Z) (signed_in alice)
         (CreateCampaign weekly_dev_tips) empty_database).

Definition with_issue : Database :=
  fst (call (runtime "i1" 20%Z) (signed_in alice) (CreateIssue issue_one)
         with_campaign).

Definition with_block : Database :=
  fst (call (runtime "b1" 30%Z) (signed_in alice) (CreateBlock plain_block)
         with_issue).

Definition with_second_campaign : Database :=
  fst (call (runtime "c2" 40%Z) (signed_in alice)
         (CreateCampaign weekly_dev_tips) with_block).

(** Inputs for the scenario. *)

Definition rename_campaign : server.updateCampaign.input :=
  {| server.updateCampaign.id := "c1";
     server.updateCampaign.name := Some "Monthly Dev Tips";
     server.updateCampaign.description := None;
     server.updateCampaign.audienceDescription := None;
     server.updateCampaign.senderName := None;
     server.updateCampaign.senderEmail := None;
     server.updateCampaign.defaultLanguage := None |}.

Definition mark_ready : server.updateIssue.input :=
  {| server.updateIssue.id := "i1";
     server.updateIssue.campaignId := "c1";
     server.updateIssue.issueNumber := None;
     server.updateIssue.subjectLine := None;
     server.updateIssue.preheaderText := None;
     server.updateIssue.status := Some "ready";
     server.updateIssue.scheduledAt := None;
     server.updateIssue.sentAt := None |}.

Definition misfiled : server.updateIssue.input :=
  {| server.updateIssue.id := "i1";
     server.updateIssue.campaignId := "c2";
     server.updateIssue.issueNumber := None;
     server.updateIssue.subjectLine := None;
     server.updateIssue.preheaderText := None;
     server.updateIssue.status := Some "ready";
     server.updateIssue.scheduledAt := None;
     server.updateIssue.sentAt := None |}.

Definition say_hi : server.updateBlock.input :=
  {| server.updateBlock.id := "b1";
     server.updateBlock.issueId := "i1";
     server.updateBlock.orderIndex := None;
     server.updateBlock.blockType := None;
     server.updateBlock.heading := Some "Hi";
     server.updateBlock.body := None;
     server.updateBlock.ctaLabel := None;
     server.updateBlock.ctaUrl := None;
     server.updateBlock.imageUrl := None;
     server.updateBlock.metaJson := None |}.

Definition drop_block : server.deleteBlock.input :=
  {| server.deleteBlock.id := "b1"; server.deleteBlock.issueId := "i1" |}.

Definition in_issue_one : server.listBlocks.input :=
  {| server.listBlocks.issueId := "i1" |}.

Definition under_campaign_one : server.listIssues.input :=
  {| server.listIssues.campaignId := "c1" |}.

(** An issue number the schema accepts and the client cannot read back:
    2^53, the first integer after the safe ones. *)




(** ** Vocabulary of the further properties *)

Definition is_select (s : Stmt) : bool :=
  match s with SELECT _ => true | _ => false end.

(** The columns no handler ever assigns. *)

Definition campaign_identity (c : NewsletterCampaigns.row)
  : string * string * Date :=
  (NewsletterCampaigns.id c, NewsletterCampaigns.userId c,
   NewsletterCampaigns.createdAt c).

Definition issue_identity (i : NewsletterIssues.row)
  : string * string * string * Date :=
  (NewsletterIssues.id i, NewsletterIssues.campaignId i,
   NewsletterIssues.userId i, NewsletterIssues.createdAt i).

Definition block_identity (b : NewsletterBlocks.row)
  : string * string * Date :=
  (NewsletterBlocks.id b, NewsletterBlocks.issueId b,
   NewsletterBlocks.createdAt b).

(** The rows a user does not own: campaigns and issues of another
    [userId], blocks whose issue is not an issue of the user. *)

Definition foreign_campaign (userId : string) (c : NewsletterCampaigns.row)
  : bool :=
  negb (db.eq NewsletterCampaigns.userId userId c).

Definition foreign_issue (userId : string) (i : NewsletterIssues.row) : bool :=
  negb (db.eq NewsletterIssues.userId userId i).

Definition foreign_block (userId : string) (t : Tables)
  (b : NewsletterBlocks.row) : bool :=
  negb (existsb (issue_filter (NewsletterBlocks.issueId b) userId) (issues t)).

(** The request of a block handler, by the issue it names. *)
Definition block_request (q : Request) : bool :=
  match q with
  | CreateBlock _ | UpdateBlock _ | DeleteBlock _ | ListBlocks _ => true
  | _ => false
  end.


Definition bob : App.User := {| App.id := "bob" |}.

Definition campaign_one : NewsletterCampaigns.row :=
  {| NewsletterCampaigns.id := "c1";
     NewsletterCampaigns.userId := "alice";
     NewsletterCampaigns.name := "Weekly Dev Tips";
     NewsletterCampaigns.description := None;
     NewsletterCampaigns.audienceDescription := None;
     NewsletterCampaigns.senderName := None;
     NewsletterCampaigns.senderEmail := None;
     NewsletterCampaigns.defaultLanguage := None;
     NewsletterCampaigns.createdAt := 10%Z;
     NewsletterCampaigns.updatedAt := 10%Z |}.

Definition with_bob : Database :=
  fst (call (runtime "c9" 50%Z) (signed_in bob)
         (CreateCampaign weekly_dev_tips) with_block).

Definition after_update : Database :=
  fst (call midnight (signed_in alice) (UpdateBlock say_hi) with_block).

Definition after_delete : Database :=
  fst (call midnight (signed_in alice) (DeleteBlock drop_block) with_block).

(** What one call can do to the tables, for the user of the session:
    nothing, or exactly one of seven changes, each with what the handler
    had checked before it. *)
Inductive effect (who : option App.User) (t : Tables) : Tables -> Prop :=
| effect_none : effect who t t
| effect_insert_campaign u c :
    who = Some u ->
    NewsletterCampaigns.userId c = App.id u ->
    NewsletterCampaigns.name c <> "" ->
    key_taken NewsletterCampaigns.id (NewsletterCampaigns.id c) (campaigns t)
    = false ->
    effect who t {| campaigns := campaigns t ++ [c];
                    issues := issues t; blocks := blocks t |}
| effect_update_campaign u key s c :
    who = Some u ->
    find (campaign_filter key (App.id u)) (campaigns t) = Some c ->
    (forall v, NewsletterCampaigns.set_name s = Some v -> v <> "") ->
    effect who t {| campaigns :=
                      assign_where NewsletterCampaigns.id key
                        (NewsletterCampaigns.assign s) (campaigns t);
                    issues := issues t; blocks := blocks t |}
| effect_insert_issue u i c :
    who = Some u ->
    find (campaign_filter (NewsletterIssues.campaignId i) (App.id u))
         (campaigns t) = Some c ->
    NewsletterIssues.userId i = App.id u ->
    key_taken NewsletterIssues.id (NewsletterIssues.id i) (issues t) = false ->
    effect who t {| campaigns := campaigns t;
                    issues := issues t ++ [i]; blocks := blocks t |}
| effect_update_issue u key campaignId s e :
    who = Some u ->
    find (issue_under key campaignId (App.id u)) (issues t) = Some e ->
    effect who t {| campaigns := campaigns t;
                    issues :=
                      assign_where NewsletterIssues.id key
                        (NewsletterIssues.assign s) (issues t);
                    blocks := blocks t |}
| effect_insert_block u b p :
    who = Some u ->
    find (issue_filter (NewsletterBlocks.issueId b) (App.id u)) (issues t)
    = Some p ->
    z.int (NewsletterBlocks.orderIndex b) = true ->
    key_taken NewsletterBlocks.id (NewsletterBlocks.id b) (blocks t) = false ->
    effect who t {| campaigns := campaigns t; issues := issues t;
                    blocks := blocks t ++ [b] |}
| effect_update_block u key issueId s p e :
    who = Some u ->
    find (issue_filter issueId (App.id u)) (issues t) = Some p ->
    find (block_under key issueId) (blocks t) = Some e ->
    (forall k, NewsletterBlocks.set_orderIndex s = Some k -> z.int k = true) ->
    effect who t {| campaigns := campaigns t; issues := issues t;
                    blocks :=
                      assign_where NewsletterBlocks.id key
                        (NewsletterBlocks.assign s) (blocks t) |}
| effect_delete_block u key issueId p :
    who = Some u ->
    find (issue_filter issueId (App.id u)) (issues t) = Some p ->
    effect who t {| campaigns := campaigns t; issues := issues t;
                    blocks :=
                      filter (fun r => negb (block_under key issueId r))
                             (blocks t) |}.

(** * Proofs *)

Unset Implicit Arguments.

(** ** Lists as tables *)

Ltac conjuncts := repeat match goal with |- _ /\ _ => split end.

Lemma first_filter {R} (p : R -> bool) (l : list R) :
  first (filter p l) = find p l.
Proof.
  induction l as [|x l IH]; cbn; [reflexivity|].
  destruct (p x); [reflexivity|exact IH].
Qed.

Lemma find_none_iff {R} (p : R -> bool) (l : list R) :
  find p l = None <-> forall x, In x l -> p x = false.
Proof.
  split.
  - apply find_none.
  - induction l as [|x l IH]; cbn; intros H; [reflexivity|].
    rewrite (H x (or_introl Logic.eq_refl)). apply IH.
    intros y Hy. apply H. now right.
Qed.

Lemma first_map_filter {R} (w : R -> bool) (f : R -> R) (l : list R) :
  first (map f (filter w l)) = option_map f (find w l).
Proof.
  induction l as [|x l IH]; cbn; [reflexivity|].
  destruct (w x); [reflexivity|exact IH].
Qed.

Lemma Forall2_map_pointwise {R} (P : R -> R -> Prop) (f : R -> R) (l : list R) :
  (forall x, In x l -> P x (f x)) -> Forall2 P l (map f l).
Proof.
  induction l as [|x l IH]; cbn; intros H; constructor.
  - apply H. now left.
  - apply IH. intros y Hy. apply H. now right.
Qed.

Lemma find_covers {R} (p q : R -> bool) (l : list R) (x : R) :
  find p l = Some x -> (forall y, p y = true -> q y = true) ->
  exists y, find q l = Some y.
Proof.
  intros F Hpq. destruct (find q l) as [y|] eqn:Q; [now exists y|].
  pose proof (find_some _ _ F) as [Hin Hp].
  specialize (Hpq x Hp).
  now rewrite (find_none _ _ Q x Hin) in Hpq.
Qed.

Lemma find_of_exists {R} (p : R -> bool) (l : list R) :
  (exists x, In x l /\ p x = true) -> exists y, find p l = Some y.
Proof.
  intros (x & Hin & Hp). destruct (find p l) as [y|] eqn:F; [now exists y|].
  rewrite (find_none _ _ F x Hin) in Hp. discriminate.
Qed.

Lemma filter_nothing {R} (w : R -> bool) (l : list R) :
  (forall x, In x l -> w x = false) ->
  filter w l = [] /\ filter (fun r => negb (w r)) l = l.
Proof.
  induction l as [|x l IH]; cbn; intros H; [now split|].
  rewrite (H x (or_introl Logic.eq_refl)); cbn.
  destruct IH as [-> ->]; [|now split].
  intros y Hy. apply H. now right.
Qed.

Lemma primary_key_decides {R} (pk : R -> string) (l : list R) (a b : R) :
  NoDup (map pk l) -> In a l -> In b l -> pk a = pk b -> a = b.
Proof.
  induction l as [|x l IH]; cbn; [tauto|].
  intros N Ha Hb E. inversion N as [|? ? Hx N']; subst.
  destruct Ha as [->|Ha], Hb as [->|Hb].
  - reflexivity.
  - elim Hx. rewrite E. now apply in_map.
  - elim Hx. rewrite <- E. now apply in_map.
  - now apply IH.
Qed.

Lemma key_taken_spec {R} (pk : R -> string) (key : string) (l : list R) :
  key_taken pk key l = false <-> ~ In key (map pk l).
Proof.
  unfold key_taken. split.
  - intros H Hin.
    assert (existsb (String.eqb key) (map pk l) = true) as E.
    { apply existsb_exists. exists key. split; [exact Hin|].
      apply String.eqb_refl. }
    congruence.
  - intros H. destruct (existsb _ _) eqn:E; [|reflexivity].
    apply existsb_exists in E as (k & Hin & Hk).
    apply String.eqb_eq in Hk. subst k. now elim H.
Qed.

Lemma NoDup_keys_insert {R} (pk : R -> string) (l : list R) (x : R) :
  NoDup (map pk l) -> key_taken pk (pk x) l = false ->
  NoDup (map pk (l ++ [x])).
Proof.
  intros N K. apply key_taken_spec in K.
  rewrite map_app. cbn. apply NoDup_app.
  - exact N.
  - repeat constructor. intros [].
  - intros k Hk [<-|[]]. exact (K Hk).
Qed.

Lemma NoDup_keys_filter {R} (pk : R -> string) (w : R -> bool) (l : list R) :
  NoDup (map pk l) -> NoDup (map pk (filter w l)).
Proof.
  induction l as [|x l IH]; cbn; intros N; [constructor|].
  inversion N as [|? ? Hx N']; subst.
  destruct (w x); cbn; [|now apply IH].
  constructor; [|now apply IH].
  intros Hin. apply Hx. apply in_map_iff in Hin as (y & E & Hy).
  apply filter_In in Hy as [Hy _]. apply in_map_iff. now exists y.
Qed.

Lemma assign_where_column {R A} (column : R -> A) (pk : R -> string)
  (key : string) (f : R -> R) (l : list R) :
  (forall r, column (f r) = column r) ->
  map column (assign_where pk key f l) = map column l.
Proof.
  intros H. unfold assign_where. rewrite map_map. apply map_ext. intros r.
  destruct (db.eq pk key r); [apply H|reflexivity].
Qed.

Lemma assign_where_in {R} (pk : R -> string) (key : string) (f : R -> R)
  (l : list R) (a : R) :
  In a (assign_where pk key f l) ->
  exists b, In b l /\ (a = b \/ a = f b).
Proof.
  unfold assign_where. rewrite in_map_iff. intros (b & E & Hb).
  exists b. split; [exact Hb|]. destruct (db.eq pk key b); auto.
Qed.

Lemma assign_where_covers {R} (pk : R -> string) (key : string) (f : R -> R)
  (l : list R) (b : R) :
  In b l -> In b (assign_where pk key f l) \/ In (f b) (assign_where pk key f l).
Proof.
  intros Hb. unfold assign_where.
  destruct (db.eq pk key b) eqn:E; [right|left];
    apply in_map_iff; exists b; rewrite E; now split.
Qed.

(** ** Filters *)

Lemma eq_filter_spec {R} (column : R -> string) (value : string) (r : R) :
  db.eq column value r = true <-> column r = value.
Proof. unfold db.eq. apply String.eqb_eq. Qed.

Lemma eq_filter_false {R} (column : R -> string) (value : string) (r : R) :
  db.eq column value r = false <-> column r <> value.
Proof. unfold db.eq. apply String.eqb_neq. Qed.

Lemma campaign_filter_spec campaignId userId c :
  campaign_filter campaignId userId c = true
  <-> owns_campaign campaignId userId c.
Proof.
  unfold campaign_filter, owns_campaign, db.and, db.eq; cbn.
  rewrite andb_true_r, andb_true_iff, !String.eqb_eq. tauto.
Qed.

Lemma issue_filter_spec issueId userId i :
  issue_filter issueId userId i = true <-> owns_issue issueId userId i.
Proof.
  unfold issue_filter, owns_issue, db.and, db.eq; cbn.
  rewrite andb_true_r, andb_true_iff, !String.eqb_eq. tauto.
Qed.

Lemma issue_under_spec issueId campaignId userId i :
  issue_under issueId campaignId userId i = true
  <-> NewsletterIssues.id i = issueId
      /\ NewsletterIssues.campaignId i = campaignId
      /\ NewsletterIssues.userId i = userId.
Proof.
  unfold issue_under, db.and, db.eq; cbn.
  rewrite andb_true_r, !andb_true_iff, !String.eqb_eq. tauto.
Qed.

Lemma block_under_spec blockId issueId b :
  block_under blockId issueId b = true
  <-> NewsletterBlocks.id b = blockId /\ NewsletterBlocks.issueId b = issueId.
Proof.
  unfold block_under, db.and, db.eq; cbn.
  rewrite andb_true_r, !andb_true_iff, !String.eqb_eq. tauto.
Qed.

(** ** What the client lets through *)

Lemma returned_inr {R S} (T : Table R S) (l back : list R) :
  db.returned T l = inr back -> back = l /\ forallb (readable T) l = true.
Proof.
  unfold db.returned. destruct (forallb _ _); [|discriminate].
  intros H. injection H as <-. now split.
Qed.

Lemma returned_readable {R S} (T : Table R S) (l : list R) :
  forallb (readable T) l = true -> db.returned T l = inr l.
Proof. unfold db.returned. now intros ->. Qed.


Lemma returned_campaigns (l : list NewsletterCampaigns.row) :
  db.returned campaigns_table l = inr l.
Proof.
  apply returned_readable. apply forallb_forall. reflexivity.
Qed.

Lemma find_none_filter {R} (p : R -> bool) (l : list R) :
  find p l = None -> filter p l = [].
Proof.
  intros F. apply filter_nothing. now apply find_none_iff.
Qed.

Lemma one_row_inr {R S} (T : Table R S) (w : R -> bool) (missing : Failure)
  (t : Tables) (r : R) :
  one_row T w missing t = inr r ->
  find w (rows T t) = Some r
  /\ forallb (readable T) (filter w (rows T t)) = true.
Proof.
  unfold one_row. destruct (db.returned T _) as [e|back] eqn:B; [discriminate|].
  apply returned_inr in B as [-> B]. rewrite first_filter.
  destruct (find w (rows T t)); [|discriminate].
  intros H. injection H as <-. now split.
Qed.

Lemma one_row_missing {R S} (T : Table R S) (w : R -> bool) (missing : Failure)
  (t : Tables) :
  find w (rows T t) = None -> one_row T w missing t = inl missing.
Proof.
  intros F. unfold one_row. now rewrite (find_none_filter _ _ F).
Qed.

Lemma one_row_readable {R S} (T : Table R S) (w : R -> bool)
  (missing : Failure) (t : Tables) (r : R) :
  find w (rows T t) = Some r ->
  forallb (readable T) (filter w (rows T t)) = true ->
  one_row T w missing t = inr r.
Proof.
  intros F B. unfold one_row. rewrite (returned_readable _ _ B).
  now rewrite first_filter, F.
Qed.


Lemma one_row_inl_missing {R S} (T : Table R S) (w : R -> bool)
  (code : ErrorCode) (message : string) (t : Tables) :
  one_row T w (ActionError code message) t = inl (ActionError code message)
  <-> find w (rows T t) = None.
Proof.
  split; [|apply one_row_missing].
  unfold one_row, db.returned.
  destruct (forallb _ _); [|discriminate].
  rewrite first_filter. now destruct (find w (rows T t)).
Qed.

Lemma one_reply_inr {R S} (T : Table R S) (l : list R)
  (reply : Reply (option R)) :
  one_reply T l = inr reply ->
  reply = {| success := true; data := first l |}
  /\ forallb (readable T) l = true.
Proof.
  unfold one_reply. destruct (db.returned T l) as [e|back] eqn:B;
    [discriminate|].
  apply returned_inr in B as [-> B]. intros H. injection H as <-. now split.
Qed.

Lemma one_reply_readable {R S} (T : Table R S) (l : list R) :
  forallb (readable T) l = true ->
  one_reply T l = inr {| success := true; data := first l |}.
Proof. intros B. unfold one_reply. now rewrite (returned_readable _ _ B). Qed.

Lemma listing_reply_inr {R S} (T : Table R S) (l : list R)
  (reply : Reply (Listing R)) :
  listing_reply T l = inr reply ->
  reply = {| success := true; data := {| items := l; total := length l |} |}.
Proof.
  unfold listing_reply. destruct (db.returned T l) as [e|back] eqn:B;
    [discriminate|].
  apply returned_inr in B as [-> B]. intros H. now injection H as <-.
Qed.

Lemma safe_number_readable (n : number) :
  safe_number n = true -> readable_number n = true /\ finite n = true.
Proof.
  unfold safe_number, readable_number, kept_as_integer.
  rewrite andb_true_iff. intros [F H]. split; [|exact F].
  destruct (whole n) as [v|]; [|reflexivity].
  destruct ((- 2 ^ 63 <? v) && (v <? 2 ^ 63 - 1))%Z; [|reflexivity].
  apply Z.leb_le in H. apply andb_true_iff.
  split; apply Z.leb_le; lia.
Qed.

(** ** The handlers, step by step *)

Ltac enter_action :=
  unfold server.createCampaign.action, server.updateCampaign.action,
    server.listCampaigns.action, server.createIssue.action,
    server.updateIssue.action, server.listIssues.action,
    server.createBlock.action, server.updateBlock.action,
    server.deleteBlock.action, server.listBlocks.action, defineAction.

Ltac enter_handler :=
  unfold server.createCampaign.handler, server.updateCampaign.handler,
    server.listCampaigns.handler, server.createIssue.handler,
    server.updateIssue.handler, server.listIssues.handler,
    server.createBlock.handler, server.updateBlock.handler,
    server.deleteBlock.handler, server.listBlocks.handler.

Lemma requireUser_run context d :
  requireUser context d =
  (d, match session context with
      | Some u => inr u
      | None => inl unauthorized
      end).
Proof.
  unfold requireUser, session.
  destruct (locals context) as [l|]; [destruct (App.user l)|]; reflexivity.
Qed.

Lemma getOwnedCampaign_run campaignId userId d :
  getOwnedCampaign campaignId userId d =
  (issue_stmt (SELECT Campaigns) d,
   match find (campaign_filter campaignId userId) (campaigns (tables d)) with
   | Some c => inr c
   | None => inl (ActionError NOT_FOUND "Campaign not found.")
   end).
Proof.
  unfold getOwnedCampaign, bind, db.select. cbn [rows campaigns_table].
  rewrite returned_campaigns, first_filter.
  fold (campaign_filter campaignId userId).
  destruct (find _ _); reflexivity.
Qed.

Lemma getOwnedIssue_run issueId userId d :
  getOwnedIssue issueId userId d =
  (issue_stmt (SELECT Issues) d, resolve_issue issueId userId (tables d)).
Proof.
  unfold getOwnedIssue, bind, db.select, resolve_issue, one_row.
  cbn [rows issues_table]. fold (issue_filter issueId userId).
  destruct (db.returned _ _) as [e|found]; [reflexivity|].
  destruct (first found); reflexivity.
Qed.

Lemma campaign_set_has_values rt i :
  NewsletterCampaigns.no_values (campaign_set rt i) = false.
Proof.
  unfold NewsletterCampaigns.no_values, campaign_set; cbn.
  now rewrite !orb_true_r.
Qed.

Lemma issue_set_has_values rt i :
  NewsletterIssues.no_values (issue_set rt i) = false.
Proof.
  unfold NewsletterIssues.no_values, issue_set; cbn.
  now rewrite !orb_true_r.
Qed.

Lemma block_set_has_values i :
  server.updateBlock.schema i = true ->
  NewsletterBlocks.no_values (block_set i) = false.
Proof.
  unfold server.updateBlock.schema. rewrite andb_true_iff. intros [_ H].
  unfold NewsletterBlocks.no_values, block_set; cbn.
  unfold server.updateBlock.refine in H. now rewrite H.
Qed.

Lemma integer_is_finite (n : number) : z.int n = true -> finite n = true.
Proof. now destruct n. Qed.

Lemma createBlock_schema_finite i :
  server.createBlock.schema i = true ->
  finite (coalesce (server.createBlock.orderIndex i) (Finite 1)) = true.
Proof.
  unfold server.createBlock.schema. rewrite !andb_true_iff. intros H.
  destruct (server.createBlock.orderIndex i) as [k|]; cbn in *;
    [|reflexivity].
  apply integer_is_finite. tauto.
Qed.

Lemma updateBlock_schema_finite i :
  server.updateBlock.schema i = true ->
  NewsletterBlocks.finite_set (block_set i) = true.
Proof.
  unfold server.updateBlock.schema. rewrite !andb_true_iff. intros H.
  unfold NewsletterBlocks.finite_set, block_set; cbn.
  destruct (server.updateBlock.orderIndex i) as [k|]; cbn in *;
    [|reflexivity].
  apply integer_is_finite. tauto.
Qed.

Lemma createCampaign_run rt i context d :
  server.createCampaign.action rt i context d =
  if server.createCampaign.schema i then
    match session context with
    | None => (d, inl unauthorized)
    | Some u =>
        let d1 := issue_stmt (INSERT Campaigns) d in
        let c :=
          {| NewsletterCampaigns.id := randomUUID rt;
             NewsletterCampaigns.userId := App.id u;
             NewsletterCampaigns.name := server.createCampaign.name i;
             NewsletterCampaigns.description :=
               server.createCampaign.description i;
             NewsletterCampaigns.audienceDescription :=
               server.createCampaign.audienceDescription i;
             NewsletterCampaigns.senderName := server.createCampaign.senderName i;
             NewsletterCampaigns.senderEmail :=
               server.createCampaign.senderEmail i;
             NewsletterCampaigns.defaultLanguage :=
               server.createCampaign.defaultLanguage i;
             NewsletterCampaigns.createdAt := now rt;
             NewsletterCampaigns.updatedAt := now rt |} in
        if key_taken NewsletterCampaigns.id (randomUUID rt)
             (campaigns (tables d))
        then (d1, inl (UniqueConstraint Campaigns))
        else
          (with_tables
             {| campaigns := campaigns (tables d) ++ [c];
                issues := issues (tables d);
                blocks := blocks (tables d) |} d1,
           inr {| success := true; data := Some c |})
    end
  else (d, inl ActionInputError).
Proof.
  unfold server.createCampaign.action, defineAction.
  destruct (server.createCampaign.schema i); [|reflexivity].
  unfold server.createCampaign.handler, bind. rewrite requireUser_run.
  destruct (session context) as [u|]; [|reflexivity].
  unfold db.insert, key_taken.
  cbn [rows with_rows primaryKey table_name finite_values campaigns_table
       tables issue_stmt NewsletterCampaigns.id
       NewsletterCampaigns.finite_values negb].
  destruct (existsb _ _); reflexivity.
Qed.

Lemma updateCampaign_run rt i context d :
  server.updateCampaign.action rt i context d =
  if server.updateCampaign.schema i then
    match session context with
    | None => (d, inl unauthorized)
    | Some u =>
        let d1 := issue_stmt (SELECT Campaigns) d in
        match find (campaign_filter (server.updateCampaign.id i) (App.id u))
                   (campaigns (tables d)) with
        | None => (d1, inl (ActionError NOT_FOUND "Campaign not found."))
        | Some _ =>
            let f := NewsletterCampaigns.assign (campaign_set rt i) in
            (with_tables
               {| campaigns :=
                    assign_where NewsletterCampaigns.id
                      (server.updateCampaign.id i) f (campaigns (tables d));
                  issues := issues (tables d);
                  blocks := blocks (tables d) |}
               (issue_stmt (UPDATE Campaigns) d1),
             inr {| success := true;
                    data := option_map f
                              (find (db.eq NewsletterCampaigns.id
                                       (server.updateCampaign.id i))
                                    (campaigns (tables d))) |})
        end
    end
  else (d, inl ActionInputError).
Proof.
  unfold server.updateCampaign.action, defineAction.
  destruct (server.updateCampaign.schema i); [|reflexivity].
  unfold server.updateCampaign.handler, bind. rewrite requireUser_run.
  destruct (session context) as [u|]; [|reflexivity].
  rewrite getOwnedCampaign_run.
  destruct (find _ _); [|reflexivity].
  unfold db.update, ret. fold (campaign_set rt i).
  cbn [no_values finite_set campaigns_table]. rewrite campaign_set_has_values.
  cbn [NewsletterCampaigns.finite_set negb].
  cbn [rows with_rows assign table_name campaigns_table tables issue_stmt].
  rewrite returned_campaigns, first_map_filter. reflexivity.
Qed.

Lemma listCampaigns_run rt i context d :
  server.listCampaigns.action rt i context d =
  match session context with
  | None => (d, inl unauthorized)
  | Some u =>
      let found := filter (db.eq NewsletterCampaigns.userId (App.id u))
                     (campaigns (tables d)) in
      (issue_stmt (SELECT Campaigns) d,
       inr {| success := true;
              data := {| items := found; total := length found |} |})
  end.
Proof.
  unfold server.listCampaigns.action, defineAction, server.listCampaigns.schema.
  unfold server.listCampaigns.handler, bind. rewrite requireUser_run.
  destruct (session context) as [u|]; [|reflexivity].
  unfold db.select. cbn [rows campaigns_table].
  now rewrite returned_campaigns.
Qed.

Lemma createIssue_run rt i context d :
  server.createIssue.action rt i context d =
  if server.createIssue.schema i then
    match session context with
    | None => (d, inl unauthorized)
    | Some u =>
        let d1 := issue_stmt (SELECT Campaigns) d in
        match find (campaign_filter (server.createIssue.campaignId i) (App.id u))
                   (campaigns (tables d)) with
        | None => (d1, inl (ActionError NOT_FOUND "Campaign not found."))
        | Some _ =>
            if negb (NewsletterIssues.finite_values (new_issue rt u i))
            then (d1, inl (RangeError NotFinite))
            else
              let d2 := issue_stmt (INSERT Issues) d1 in
              if key_taken NewsletterIssues.id (randomUUID rt)
                   (issues (tables d))
              then (d2, inl (UniqueConstraint Issues))
              else
                (with_tables
                   {| campaigns := campaigns (tables d);
                      issues := issues (tables d) ++ [new_issue rt u i];
                      blocks := blocks (tables d) |} d2,
                 one_reply issues_table [new_issue rt u i])
        end
    end
  else (d, inl ActionInputError).
Proof.
  unfold server.createIssue.action, defineAction.
  destruct (server.createIssue.schema i); [|reflexivity].
  unfold server.createIssue.handler, bind. rewrite requireUser_run.
  destruct (session context) as [u|]; [|reflexivity].
  rewrite getOwnedCampaign_run.
  destruct (find _ _); [|reflexivity].
  unfold db.insert, key_taken, one_reply. fold (new_issue rt u i).
  cbn [rows with_rows primaryKey table_name finite_values issues_table tables
       issue_stmt].
  destruct (negb _); [reflexivity|].
  cbn [NewsletterIssues.id new_issue].
  destruct (existsb _ _); [reflexivity|].
  destruct (db.returned _ _); reflexivity.
Qed.

Lemma updateIssue_run rt i context d :
  server.updateIssue.action rt i context d =
  if server.updateIssue.schema i then
    match session context with
    | None => (d, inl unauthorized)
    | Some u =>
        let d1 := issue_stmt (SELECT Campaigns) d in
        match find (campaign_filter (server.updateIssue.campaignId i) (App.id u))
                   (campaigns (tables d)) with
        | None => (d1, inl (ActionError NOT_FOUND "Campaign not found."))
        | Some _ =>
            let d2 := issue_stmt (SELECT Issues) d1 in
            match one_row issues_table
                    (issue_under (server.updateIssue.id i)
                       (server.updateIssue.campaignId i) (App.id u))
                    (ActionError NOT_FOUND "Issue not found.") (tables d) with
            | inl e => (d2, inl e)
            | inr _ =>
                if negb (NewsletterIssues.finite_set (issue_set rt i))
                then (d2, inl (RangeError NotFinite))
                else
                  let f := NewsletterIssues.assign (issue_set rt i) in
                  (with_tables
                     {| campaigns := campaigns (tables d);
                        issues :=
                          assign_where NewsletterIssues.id
                            (server.updateIssue.id i) f (issues (tables d));
                        blocks := blocks (tables d) |}
                     (issue_stmt (UPDATE Issues) d2),
                   one_reply issues_table
                     (map f (filter (db.eq NewsletterIssues.id
                                       (server.updateIssue.id i))
                                    (issues (tables d)))))
            end
        end
    end
  else (d, inl ActionInputError).
Proof.
  unfold server.updateIssue.action, defineAction.
  destruct (server.updateIssue.schema i); [|reflexivity].
  unfold server.updateIssue.handler, bind. rewrite requireUser_run.
  destruct (session context) as [u|]; [|reflexivity].
  rewrite getOwnedCampaign_run.
  destruct (find _ _); [|reflexivity].
  unfold db.select, one_row. cbn [rows issues_table tables issue_stmt].
  fold (issue_under (server.updateIssue.id i)
          (server.updateIssue.campaignId i) (App.id u)).
  destruct (db.returned _ _) as [e|found]; [reflexivity|].
  destruct (first found); [|reflexivity].
  unfold db.update, ret, one_reply. fold (issue_set rt i).
  cbn [no_values finite_set issues_table]. rewrite issue_set_has_values.
  destruct (negb _); [reflexivity|].
  cbn [rows with_rows assign table_name issues_table tables issue_stmt].
  destruct (db.returned _ _); reflexivity.
Qed.

Lemma listIssues_run rt i context d :
  server.listIssues.action rt i context d =
  if server.listIssues.schema i then
    match session context with
    | None => (d, inl unauthorized)
    | Some u =>
        let d1 := issue_stmt (SELECT Campaigns) d in
        match find (campaign_filter (server.listIssues.campaignId i) (App.id u))
                   (campaigns (tables d)) with
        | None => (d1, inl (ActionError NOT_FOUND "Campaign not found."))
        | Some _ =>
            (issue_stmt (SELECT Issues) d1,
             listing_reply issues_table
               (filter (db.and [db.eq NewsletterIssues.campaignId
                                  (server.listIssues.campaignId i);
                                db.eq NewsletterIssues.userId (App.id u)])
                       (issues (tables d))))
        end
    end
  else (d, inl ActionInputError).
Proof.
  unfold server.listIssues.action, defineAction.
  destruct (server.listIssues.schema i); [|reflexivity].
  unfold server.listIssues.handler, bind. rewrite requireUser_run.
  destruct (session context) as [u|]; [|reflexivity].
  rewrite getOwnedCampaign_run.
  destruct (find _ _); [|reflexivity].
  unfold db.select, listing_reply. cbn [rows issues_table tables issue_stmt].
  destruct (db.returned _ _); reflexivity.
Qed.

Lemma createBlock_run rt i context d :
  server.createBlock.action rt i context d =
  if server.createBlock.schema i then
    match session context with
    | None => (d, inl unauthorized)
    | Some u =>
        let d1 := issue_stmt (SELECT Issues) d in
        match resolve_issue (server.createBlock.issueId i) (App.id u)
                (tables d) with
        | inl e => (d1, inl e)
        | inr p =>
            let d2 := issue_stmt (SELECT Campaigns) d1 in
            match find (campaign_filter (NewsletterIssues.campaignId p)
                          (App.id u)) (campaigns (tables d)) with
            | None => (d2, inl (ActionError NOT_FOUND "Campaign not found."))
            | Some _ =>
                let d3 := issue_stmt (INSERT Blocks) d2 in
                if key_taken NewsletterBlocks.id (randomUUID rt)
                     (blocks (tables d))
                then (d3, inl (UniqueConstraint Blocks))
                else
                  (with_tables
                     {| campaigns := campaigns (tables d);
                        issues := issues (tables d);
                        blocks := blocks (tables d) ++ [new_block rt i] |} d3,
                   one_reply blocks_table [new_block rt i])
            end
        end
    end
  else (d, inl ActionInputError).
Proof.
  unfold server.createBlock.action, defineAction.
  destruct (server.createBlock.schema i) eqn:Hs; [|reflexivity].
  unfold server.createBlock.handler, bind. rewrite requireUser_run.
  destruct (session context) as [u|]; [|reflexivity].
  rewrite getOwnedIssue_run.
  destruct (resolve_issue _ _ _) as [e|p]; [reflexivity|].
  rewrite getOwnedCampaign_run. cbn [tables issue_stmt].
  destruct (find _ _); [|reflexivity].
  unfold db.insert, key_taken, one_reply. fold (new_block rt i).
  cbn [rows with_rows primaryKey table_name finite_values blocks_table tables
       issue_stmt].
  unfold NewsletterBlocks.finite_values. cbn [new_block NewsletterBlocks.orderIndex].
  rewrite (createBlock_schema_finite _ Hs). cbn [negb].
  cbn [NewsletterBlocks.id].
  destruct (existsb _ _); [reflexivity|].
  destruct (db.returned _ _); reflexivity.
Qed.

Lemma updateBlock_run rt i context d :
  server.updateBlock.action rt i context d =
  if server.updateBlock.schema i then
    match session context with
    | None => (d, inl unauthorized)
    | Some u =>
        let d1 := issue_stmt (SELECT Issues) d in
        match resolve_issue (server.updateBlock.issueId i) (App.id u)
                (tables d) with
        | inl e => (d1, inl e)
        | inr p =>
            let d2 := issue_stmt (SELECT Campaigns) d1 in
            match find (campaign_filter (NewsletterIssues.campaignId p)
                          (App.id u)) (campaigns (tables d)) with
            | None => (d2, inl (ActionError NOT_FOUND "Campaign not found."))
            | Some _ =>
                let d3 := issue_stmt (SELECT Blocks) d2 in
                match one_row blocks_table
                        (block_under (server.updateBlock.id i)
                           (server.updateBlock.issueId i))
                        (ActionError NOT_FOUND "Block not found.")
                        (tables d) with
                | inl e => (d3, inl e)
                | inr _ =>
                    let f := NewsletterBlocks.assign (block_set i) in
                    (with_tables
                       {| campaigns := campaigns (tables d);
                          issues := issues (tables d);
                          blocks :=
                            assign_where NewsletterBlocks.id
                              (server.updateBlock.id i) f (blocks (tables d)) |}
                       (issue_stmt (UPDATE Blocks) d3),
                     one_reply blocks_table
                       (map f (filter (db.eq NewsletterBlocks.id
                                         (server.updateBlock.id i))
                                      (blocks (tables d)))))
                end
            end
        end
    end
  else (d, inl ActionInputError).
Proof.
  unfold server.updateBlock.action, defineAction.
  destruct (server.updateBlock.schema i) eqn:Hs; [|reflexivity].
  unfold server.updateBlock.handler, bind. rewrite requireUser_run.
  destruct (session context) as [u|]; [|reflexivity].
  rewrite getOwnedIssue_run.
  destruct (resolve_issue _ _ _) as [e|p]; [reflexivity|].
  rewrite getOwnedCampaign_run. cbn [tables issue_stmt].
  destruct (find _ _); [|reflexivity].
  unfold db.select, one_row. cbn [rows blocks_table tables issue_stmt].
  fold (block_under (server.updateBlock.id i) (server.updateBlock.issueId i)).
  destruct (db.returned _ _) as [e|found]; [reflexivity|].
  destruct (first found); [|reflexivity].
  unfold db.update, ret, one_reply. fold (block_set i).
  cbn [no_values finite_set blocks_table].
  rewrite (block_set_has_values _ Hs), (updateBlock_schema_finite _ Hs).
  cbn [negb].
  cbn [rows with_rows assign table_name blocks_table tables issue_stmt].
  destruct (db.returned _ _); reflexivity.
Qed.

Lemma deleteBlock_run rt i context d :
  server.deleteBlock.action rt i context d =
  if server.deleteBlock.schema i then
    match session context with
    | None => (d, inl unauthorized)
    | Some u =>
        let d1 := issue_stmt (SELECT Issues) d in
        match resolve_issue (server.deleteBlock.issueId i) (App.id u)
                (tables d) with
        | inl e => (d1, inl e)
        | inr p =>
            let d2 := issue_stmt (SELECT Campaigns) d1 in
            match find (campaign_filter (NewsletterIssues.campaignId p)
                          (App.id u)) (campaigns (tables d)) with
            | None => (d2, inl (ActionError NOT_FOUND "Campaign not found."))
            | Some _ =>
                let w := block_under (server.deleteBlock.id i)
                           (server.deleteBlock.issueId i) in
                let d3 :=
                  with_tables
                    {| campaigns := campaigns (tables d);
                       issues := issues (tables d);
                       blocks := filter (fun r => negb (w r))
                                   (blocks (tables d)) |}
                    (issue_stmt (DELETE Blocks) d2) in
                if (length (filter w (blocks (tables d))) =? 0)%nat
                then (d3, inl (ActionError NOT_FOUND "Block not found."))
                else (d3, inr {| ack_success := true |})
            end
        end
    end
  else (d, inl ActionInputError).
Proof.
  unfold server.deleteBlock.action, defineAction.
  destruct (server.deleteBlock.schema i); [|reflexivity].
  unfold server.deleteBlock.handler, bind. rewrite requireUser_run.
  destruct (session context) as [u|]; [|reflexivity].
  rewrite getOwnedIssue_run.
  destruct (resolve_issue _ _ _) as [e|p]; [reflexivity|].
  rewrite getOwnedCampaign_run. cbn [tables issue_stmt].
  destruct (find _ _); [|reflexivity].
  unfold db.delete.
  fold (block_under (server.deleteBlock.id i) (server.deleteBlock.issueId i)).
  cbn [rows with_rows table_name blocks_table tables issue_stmt].
  destruct (_ =? 0)%nat; reflexivity.
Qed.

Lemma listBlocks_run rt i context d :
  server.listBlocks.action rt i context d =
  if server.listBlocks.schema i then
    match session context with
    | None => (d, inl unauthorized)
    | Some u =>
        let d1 := issue_stmt (SELECT Issues) d in
        match resolve_issue (server.listBlocks.issueId i) (App.id u)
                (tables d) with
        | inl e => (d1, inl e)
        | inr p =>
            let d2 := issue_stmt (SELECT Campaigns) d1 in
            match find (campaign_filter (NewsletterIssues.campaignId p)
                          (App.id u)) (campaigns (tables d)) with
            | None => (d2, inl (ActionError NOT_FOUND "Campaign not found."))
            | Some _ =>
                (issue_stmt (SELECT Blocks) d2,
                 listing_reply blocks_table
                   (filter (db.eq NewsletterBlocks.issueId
                              (server.listBlocks.issueId i))
                           (blocks (tables d))))
            end
        end
    end
  else (d, inl ActionInputError).
Proof.
  unfold server.listBlocks.action, defineAction.
  destruct (server.listBlocks.schema i); [|reflexivity].
  unfold server.listBlocks.handler, bind. rewrite requireUser_run.
  destruct (session context) as [u|]; [|reflexivity].
  rewrite getOwnedIssue_run.
  destruct (resolve_issue _ _ _) as [e|p]; [reflexivity|].
  rewrite getOwnedCampaign_run. cbn [tables issue_stmt].
  destruct (find _ _); [|reflexivity].
  unfold db.select, listing_reply. cbn [rows blocks_table tables issue_stmt].
  destruct (db.returned _ _); reflexivity.
Qed.
(** ** What a successful update did *)

Lemma updateCampaign_success rt i context d d' reply :
  server.updateCampaign.action rt i context d = (d', inr reply) ->
  exists u c,
    session context = Some u
    /\ find (campaign_filter (server.updateCampaign.id i) (App.id u))
            (campaigns (tables d)) = Some c
    /\ tables d' =
       {| campaigns :=
            assign_where NewsletterCampaigns.id (server.updateCampaign.id i)
              (NewsletterCampaigns.assign (campaign_set rt i))
              (campaigns (tables d));
          issues := issues (tables d);
          blocks := blocks (tables d) |}
    /\ reply =
       {| success := true;
          data := option_map (NewsletterCampaigns.assign (campaign_set rt i))
                    (find (db.eq NewsletterCampaigns.id
                             (server.updateCampaign.id i))
                          (campaigns (tables d))) |}.
Proof.
  rewrite updateCampaign_run. intros H.
  destruct (server.updateCampaign.schema i); [|discriminate].
  destruct (session context) as [u|]; [|discriminate]. cbv zeta in H.
  destruct (find (campaign_filter _ _) _) as [c|] eqn:Hc; [|discriminate].
  inversion H; subst; clear H. exists u, c. now conjuncts.
Qed.

Lemma updateIssue_success rt i context d d' reply :
  server.updateIssue.action rt i context d = (d', inr reply) ->
  exists u e,
    session context = Some u
    /\ find (issue_under (server.updateIssue.id i)
               (server.updateIssue.campaignId i) (App.id u))
            (issues (tables d)) = Some e
    /\ tables d' =
       {| campaigns := campaigns (tables d);
          issues :=
            assign_where NewsletterIssues.id (server.updateIssue.id i)
              (NewsletterIssues.assign (issue_set rt i)) (issues (tables d));
          blocks := blocks (tables d) |}
    /\ reply =
       {| success := true;
          data := option_map (NewsletterIssues.assign (issue_set rt i))
                    (find (db.eq NewsletterIssues.id (server.updateIssue.id i))
                          (issues (tables d))) |}.
Proof.
  rewrite updateIssue_run. intros H.
  destruct (server.updateIssue.schema i); [|discriminate].
  destruct (session context) as [u|]; [|discriminate]. cbv zeta in H.
  destruct (find (campaign_filter _ _) _); [|discriminate].
  destruct (one_row _ _ _ _) as [x|e] eqn:He; [discriminate|].
  apply one_row_inr in He as [He _].
  destruct (negb _); [discriminate|].
  injection H as Ht R. apply one_reply_inr in R as [-> _].
  rewrite first_map_filter. subst d'. exists u, e. now conjuncts.
Qed.

Lemma updateBlock_success rt i context d d' reply :
  server.updateBlock.action rt i context d = (d', inr reply) ->
  exists e,
    find (block_under (server.updateBlock.id i) (server.updateBlock.issueId i))
         (blocks (tables d)) = Some e
    /\ tables d' =
       {| campaigns := campaigns (tables d);
          issues := issues (tables d);
          blocks :=
            assign_where NewsletterBlocks.id (server.updateBlock.id i)
              (NewsletterBlocks.assign (block_set i)) (blocks (tables d)) |}
    /\ reply =
       {| success := true;
          data := option_map (NewsletterBlocks.assign (block_set i))
                    (find (db.eq NewsletterBlocks.id (server.updateBlock.id i))
                          (blocks (tables d))) |}.
Proof.
  rewrite updateBlock_run. intros H.
  destruct (server.updateBlock.schema i); [|discriminate].
  destruct (session context) as [u|]; [|discriminate]. cbv zeta in H.
  destruct (resolve_issue _ _ _); [discriminate|].
  destruct (find (campaign_filter _ _) _); [|discriminate].
  destruct (one_row _ _ _ _) as [x|e] eqn:He; [discriminate|].
  apply one_row_inr in He as [He _].
  injection H as Ht R. apply one_reply_inr in R as [-> _].
  rewrite first_map_filter. subst d'. exists e. now conjuncts.
Qed.

Lemma field_applied_coalesce {A} (given : option A) (before : A) :
  field_applied given before (coalesce given before).
Proof.
  unfold field_applied. destruct given; cbn; split; congruence.
Qed.

Lemma nullable_applied_assign {A} (given : option A) (before : option A) :
  nullable_applied given before (assign_nullable given before).
Proof.
  unfold nullable_applied. destruct given; cbn; split; congruence.
Qed.

Create HintDb patch.

#[local] Hint Resolve field_applied_coalesce nullable_applied_assign : patch.




Lemma update_where_key {R} (pk : R -> string) (key : string)
  (patched : R -> R -> Prop) (f : R -> R) (l : list R) :
  (forall r, patched r (f r)) ->
  updated_in_place pk key patched l (assign_where pk key f l).
Proof.
  intros Hf. apply Forall2_map_pointwise. intros r _.
  destruct (db.eq pk key r) eqn:E.
  - apply eq_filter_spec in E. split; [intros _; apply Hf|congruence].
  - apply eq_filter_false in E. split; [congruence|reflexivity].
Qed.

(** The row an update returns is the new state of a stored row with the
    key asked for. *)
Lemma returned_row {R} (pk : R -> string) (key : string) (p : R -> bool)
  (f : R -> R) (l : list R) (x : R) :
  find p l = Some x -> (forall y, p y = true -> pk y = key) ->
  exists before,
    In before l /\ pk before = key
    /\ option_map f (find (db.eq pk key) l) = Some (f before).
Proof.
  intros F Hp.
  destruct (find_covers p (db.eq pk key) l x F) as [y Hy].
  - intros z Hz. apply eq_filter_spec. now apply Hp.
  - exists y. pose proof (find_some _ _ Hy) as [Hin Hk].
    apply eq_filter_spec in Hk. rewrite Hy. now repeat split.
Qed.

(** ** Consistency is kept *)

Lemma consistent_no_rows : consistent no_rows.
Proof.
  constructor; cbn; try constructor; intros ? [].
Qed.

Lemma consistent_insert_campaign t c :
  consistent t ->
  key_taken NewsletterCampaigns.id (NewsletterCampaigns.id c) (campaigns t)
  = false ->
  consistent {| campaigns := campaigns t ++ [c];
                issues := issues t; blocks := blocks t |}.
Proof.
  intros C K. destruct C as [Pc Pi Pb Ch Fk]. constructor; cbn; try assumption.
  - now apply NoDup_keys_insert.
  - intros i Hi. destruct (Ch i Hi) as (c0 & Hc0 & Ho). exists c0.
    split; [apply in_or_app; now left|exact Ho].
Qed.

Lemma consistent_update_campaign t key s :
  consistent t ->
  consistent {| campaigns :=
                  assign_where NewsletterCampaigns.id key
                    (NewsletterCampaigns.assign s) (campaigns t);
                issues := issues t; blocks := blocks t |}.
Proof.
  intros C. destruct C as [Pc Pi Pb Ch Fk]. constructor; cbn; try assumption.
  - rewrite assign_where_column; [exact Pc|reflexivity].
  - intros i Hi. destruct (Ch i Hi) as (c0 & Hc0 & Ho).
    destruct (assign_where_covers NewsletterCampaigns.id key
                (NewsletterCampaigns.assign s) _ _ Hc0) as [H|H].
    + now exists c0.
    + exists (NewsletterCampaigns.assign s c0). split; [exact H|exact Ho].
Qed.

Lemma consistent_insert_issue t i c :
  consistent t ->
  key_taken NewsletterIssues.id (NewsletterIssues.id i) (issues t) = false ->
  In c (campaigns t) ->
  owns_campaign (NewsletterIssues.campaignId i) (NewsletterIssues.userId i) c ->
  consistent {| campaigns := campaigns t;
                issues := issues t ++ [i]; blocks := blocks t |}.
Proof.
  intros C K Hc Ho. destruct C as [Pc Pi Pb Ch Fk].
  constructor; cbn; try assumption.
  - now apply NoDup_keys_insert.
  - intros j Hj. apply in_app_or in Hj as [Hj|[<-|[]]].
    + now apply Ch.
    + now exists c.
  - intros b Hb. destruct (Fk b Hb) as (j & Hj & E). exists j.
    split; [apply in_or_app; now left|exact E].
Qed.

Lemma consistent_update_issue t key s :
  consistent t ->
  consistent {| campaigns := campaigns t;
                issues :=
                  assign_where NewsletterIssues.id key
                    (NewsletterIssues.assign s) (issues t);
                blocks := blocks t |}.
Proof.
  intros C. destruct C as [Pc Pi Pb Ch Fk]. constructor; cbn; try assumption.
  - rewrite assign_where_column; [exact Pi|reflexivity].
  - intros i Hi. apply assign_where_in in Hi as (j & Hj & [->| ->]).
    + now apply Ch.
    + destruct (Ch j Hj) as (c & Hc & Ho). now exists c.
  - intros b Hb. destruct (Fk b Hb) as (j & Hj & E).
    destruct (assign_where_covers NewsletterIssues.id key
                (NewsletterIssues.assign s) _ _ Hj) as [H|H].
    + now exists j.
    + exists (NewsletterIssues.assign s j). split; [exact H|exact E].
Qed.

Lemma consistent_insert_block t b i :
  consistent t ->
  key_taken NewsletterBlocks.id (NewsletterBlocks.id b) (blocks t) = false ->
  In i (issues t) -> NewsletterIssues.id i = NewsletterBlocks.issueId b ->
  consistent {| campaigns := campaigns t;
                issues := issues t; blocks := blocks t ++ [b] |}.
Proof.
  intros C K Hi E. destruct C as [Pc Pi Pb Ch Fk].
  constructor; cbn; try assumption.
  - now apply NoDup_keys_insert.
  - intros b' Hb. apply in_app_or in Hb as [Hb|[<-|[]]].
    + now apply Fk.
    + now exists i.
Qed.

Lemma consistent_update_block t key s :
  consistent t ->
  consistent {| campaigns := campaigns t; issues := issues t;
                blocks :=
                  assign_where NewsletterBlocks.id key
                    (NewsletterBlocks.assign s) (blocks t) |}.
Proof.
  intros C. destruct C as [Pc Pi Pb Ch Fk]. constructor; cbn; try assumption.
  - rewrite assign_where_column; [exact Pb|reflexivity].
  - intros b Hb. apply assign_where_in in Hb as (b0 & Hb0 & [->| ->]).
    + now apply Fk.
    + destruct (Fk b0 Hb0) as (j & Hj & E). now exists j.
Qed.

Lemma consistent_delete_block t w :
  consistent t ->
  consistent {| campaigns := campaigns t; issues := issues t;
                blocks := filter w (blocks t) |}.
Proof.
  intros C. destruct C as [Pc Pi Pb Ch Fk]. constructor; cbn; try assumption.
  - now apply NoDup_keys_filter.
  - intros b Hb. apply filter_In in Hb as [Hb _]. now apply Fk.
Qed.

Lemma fmap_run {A B} (f : A -> B) (m : Action A) (d : Database) :
  fmap f m d =
  (fst (m d), match snd (m d) with inl e => inl e | inr a => inr (f a) end).
Proof.
  unfold fmap, bind, ret. destruct (m d) as [d' [e|a]]; reflexivity.
Qed.

(** Every action takes a consistent database to a consistent one. *)
Lemma call_consistent rt context q d :
  consistent (tables d) -> consistent (tables (fst (call rt context q d))).
Proof.
  intros C. destruct q; cbn [call]; rewrite fmap_run; cbn [fst].
  - rewrite createCampaign_run.
    destruct (server.createCampaign.schema i); [|exact C].
    destruct (session context) as [u|]; [|exact C]. cbv zeta.
    destruct (key_taken _ _ _) eqn:K; [exact C|].
    cbn [fst tables with_tables]. now apply consistent_insert_campaign.
  - rewrite updateCampaign_run.
    destruct (server.updateCampaign.schema i); [|exact C].
    destruct (session context) as [u|]; [|exact C]. cbv zeta.
    destruct (find _ _); [|exact C].
    cbn [fst tables with_tables]. now apply consistent_update_campaign.
  - rewrite listCampaigns_run.
    destruct (session context) as [u|]; exact C.
  - rewrite createIssue_run.
    destruct (server.createIssue.schema i); [|exact C].
    destruct (session context) as [u|]; [|exact C]. cbv zeta.
    destruct (find _ _) as [c|] eqn:F; [|exact C].
    destruct (negb _); [exact C|].
    destruct (key_taken _ _ _) eqn:K; [exact C|].
    cbn [fst tables with_tables].
    pose proof (find_some _ _ F) as [Hin Ho].
    apply campaign_filter_spec in Ho.
    now apply consistent_insert_issue with (c := c).
  - rewrite updateIssue_run.
    destruct (server.updateIssue.schema i); [|exact C].
    destruct (session context) as [u|]; [|exact C]. cbv zeta.
    destruct (find (campaign_filter _ _) _); [|exact C].
    destruct (one_row _ _ _ _); [exact C|].
    destruct (negb _); [exact C|].
    cbn [fst tables with_tables]. now apply consistent_update_issue.
  - rewrite listIssues_run.
    destruct (server.listIssues.schema i); [|exact C].
    destruct (session context) as [u|]; [|exact C]. cbv zeta.
    destruct (find _ _); exact C.
  - rewrite createBlock_run.
    destruct (server.createBlock.schema i); [|exact C].
    destruct (session context) as [u|]; [|exact C]. cbv zeta.
    destruct (resolve_issue _ _ _) as [e|p] eqn:F; [exact C|].
    destruct (find (campaign_filter _ _) _); [|exact C].
    destruct (key_taken _ _ _) eqn:K; [exact C|].
    cbn [fst tables with_tables].
    apply one_row_inr in F as [F _].
    pose proof (find_some _ _ F) as [Hin Ho].
    apply issue_filter_spec in Ho as [Ho _].
    now apply consistent_insert_block with (i := p).
  - rewrite updateBlock_run.
    destruct (server.updateBlock.schema i); [|exact C].
    destruct (session context) as [u|]; [|exact C]. cbv zeta.
    destruct (resolve_issue _ _ _); [exact C|].
    destruct (find (campaign_filter _ _) _); [|exact C].
    destruct (one_row _ _ _ _); [exact C|].
    cbn [fst tables with_tables]. now apply consistent_update_block.
  - rewrite deleteBlock_run.
    destruct (server.deleteBlock.schema i); [|exact C].
    destruct (session context) as [u|]; [|exact C]. cbv zeta.
    destruct (resolve_issue _ _ _); [exact C|].
    destruct (find (campaign_filter _ _) _); [|exact C].
    destruct (_ =? 0)%nat; cbn [fst tables with_tables];
      now apply consistent_delete_block.
  - rewrite listBlocks_run.
    destruct (server.listBlocks.schema i); [|exact C].
    destruct (session context) as [u|]; [|exact C]. cbv zeta.
    destruct (resolve_issue _ _ _); [exact C|].
    destruct (find (campaign_filter _ _) _); exact C.
Qed.

(** Every database the actions produce from the empty one is consistent. *)
Lemma reachable_consistent d : reachable d -> consistent (tables d).
Proof.
  induction 1 as [|rt context q d _ IH].
  - exact consistent_no_rows.
  - now apply call_consistent.
Qed.

(** The database of the scenario is one the actions produce. *)
Lemma with_block_reachable : reachable with_block.
Proof. repeat apply reachable_call. apply reachable_empty. Qed.

(** * Properties of the specification *)

(** ** Callers that are not signed in *)

(** C1, as the code has it.  A caller without a session never gets through:
    the call fails, the three tables keep their rows and no statement
    reaches the database.  The failure is UNAUTHORIZED when the input passes
    the schema of the action; an input the schema rejects is turned down
    with an input error before the handler, and so before the session is
    looked at. *)
Theorem unauthenticated_call_fails (rt : Runtime) (context : ActionAPIContext)
  (q : Request) (d : Database) :
  session context = None ->
  call rt context q d =
  (d, inl (if accepted q then unauthorized else ActionInputError)).
Proof.
  intros H.
  destruct q; cbn [call accepted]; unfold fmap, bind; enter_action;
    match goal with |- context [if ?s then _ else _] => destruct s end;
    try reflexivity;
    enter_handler; unfold bind; rewrite requireUser_run, H; reflexivity.
Qed.

(** A valid [createCampaign] without a session: UNAUTHORIZED, and the
    database is the one that was given. *)
Lemma unauthenticated_call_fails_witness :
  call midnight stranger (CreateCampaign weekly_dev_tips) empty_database
  = (empty_database, inl unauthorized).
Proof.
  exact (unauthenticated_call_fails midnight stranger
           (CreateCampaign weekly_dev_tips) empty_database Logic.eq_refl).
Defined.

(** C1, as stated, fails: without a session, [createCampaign] with an empty
    name is answered with an input error, not with UNAUTHORIZED. *)
Lemma unauthenticated_invalid_input_not_unauthorized :
  session stranger = None
  /\ snd (call midnight stranger (CreateCampaign nameless_campaign)
            empty_database) = inl ActionInputError
  /\ snd (call midnight stranger (CreateCampaign nameless_campaign)
            empty_database) <> inl unauthorized.
Proof.
  split; [reflexivity|]. split; [reflexivity|]. cbn. discriminate.
Qed.

(** ** The ownership resolvers *)



(** ** Partial updates *)



(** ** Updates without a field *)

(** C4. An update whose input carries none of the mutable fields is turned
    down by the schema with an input error, whoever calls and whatever the
    ids: the database is returned as it was, tables and journal, so nothing
    was read and nothing written. *)
Theorem empty_update_rejected (rt : Runtime) (context : ActionAPIContext)
  (d : Database) (id parent : string) :
  server.updateCampaign.action rt
    {| server.updateCampaign.id := id;
       server.updateCampaign.name := None;
       server.updateCampaign.description := None;
       server.updateCampaign.audienceDescription := None;
       server.updateCampaign.senderName := None;
       server.updateCampaign.senderEmail := None;
       server.updateCampaign.defaultLanguage := None |} context d
  = (d, inl ActionInputError)
  /\
  server.updateIssue.action rt
    {| server.updateIssue.id := id;
       server.updateIssue.campaignId := parent;
       server.updateIssue.issueNumber := None;
       server.updateIssue.subjectLine := None;
       server.updateIssue.preheaderText := None;
       server.updateIssue.status := None;
       server.updateIssue.scheduledAt := None;
       server.updateIssue.sentAt := None |} context d
  = (d, inl ActionInputError)
  /\
  server.updateBlock.action rt
    {| server.updateBlock.id := id;
       server.updateBlock.issueId := parent;
       server.updateBlock.orderIndex := None;
       server.updateBlock.blockType := None;
       server.updateBlock.heading := None;
       server.updateBlock.body := None;
       server.updateBlock.ctaLabel := None;
       server.updateBlock.ctaUrl := None;
       server.updateBlock.imageUrl := None;
       server.updateBlock.metaJson := None |} context d
  = (d, inl ActionInputError).
Proof.
  enter_action.
  unfold server.updateCampaign.schema, server.updateIssue.schema,
    server.updateBlock.schema.
  cbn [server.updateCampaign.refine server.updateIssue.refine
       server.updateBlock.refine defined orb
       server.updateCampaign.name server.updateCampaign.description
       server.updateCampaign.audienceDescription
       server.updateCampaign.senderName server.updateCampaign.senderEmail
       server.updateCampaign.defaultLanguage
       server.updateIssue.issueNumber server.updateIssue.subjectLine
       server.updateIssue.preheaderText server.updateIssue.status
       server.updateIssue.scheduledAt server.updateIssue.sentAt
       server.updateBlock.orderIndex server.updateBlock.blockType
       server.updateBlock.heading server.updateBlock.body
       server.updateBlock.ctaLabel server.updateBlock.ctaUrl
       server.updateBlock.imageUrl server.updateBlock.metaJson].
  rewrite !andb_false_r. repeat split.
Qed.

(** ** Creating an issue *)



(** ** Creating a block *)




(** ** Deleting a block *)



(** ** Updating an issue under its campaign *)

Lemma assigned_issue_readable rt i (x : NewsletterIssues.row) :
  optionally safe_number (server.updateIssue.issueNumber i) = true ->
  issue_safe x = true ->
  NewsletterIssues.readable (NewsletterIssues.assign (issue_set rt i) x) = true.
Proof.
  intros Hi Hx. unfold NewsletterIssues.readable, issue_safe in *.
  cbn [NewsletterIssues.assign NewsletterIssues.issueNumber issue_set
       NewsletterIssues.set_issueNumber].
  destruct (server.updateIssue.issueNumber i) as [n|]; cbn [assign_nullable].
  - now apply safe_number_readable.
  - destruct (NewsletterIssues.issueNumber x) as [n|]; [|reflexivity].
    now apply safe_number_readable.
Qed.

(** C8. Once [updateIssue] has resolved the campaign of the input for the
    caller, it looks for an issue that has the id of the input, the
    [campaignId] of the input and the caller as [userId], all three at
    once.  When no stored issue has the three, the call fails with
    NOT_FOUND, the tables are what they were and the database has seen two
    reads and no write.  When one has, the call does not fail with that
    error; and it succeeds if the numbers involved are safe: the
    [issueNumber] of the input, if any, and that of the stored issues with
    the id of the input. *)
Theorem updateIssue_requires_issue_under_campaign (rt : Runtime)
  (i : server.updateIssue.input) (context : ActionAPIContext) (d : Database)
  (u : App.User) (c : NewsletterCampaigns.row) :
  server.updateIssue.schema i = true ->
  session context = Some u ->
  snd (getOwnedCampaign (server.updateIssue.campaignId i) (App.id u) d)
  = inr c ->
  let under e :=
    NewsletterIssues.id e = server.updateIssue.id i
    /\ NewsletterIssues.campaignId e = server.updateIssue.campaignId i
    /\ NewsletterIssues.userId e = App.id u in
  let r := server.updateIssue.action rt i context d in
  ((forall e, In e (issues (tables d)) -> ~ under e) ->
   snd r = inl (ActionError NOT_FOUND "Issue not found.")
   /\ tables (fst r) = tables d
   /\ journal (fst r) = journal d ++ [SELECT Campaigns; SELECT Issues])
  /\ ((exists e, In e (issues (tables d)) /\ under e) ->
      snd r <> inl (ActionError NOT_FOUND "Issue not found."))
  /\ ((exists e, In e (issues (tables d)) /\ under e) ->
      optionally safe_number (server.updateIssue.issueNumber i) = true ->
      (forall x, In x (issues (tables d)) ->
                 NewsletterIssues.id x = server.updateIssue.id i ->
                 issue_safe x = true) ->
      exists reply, snd r = inr reply).
Proof.
  intros Hs Hu Hc under r. subst r. rewrite updateIssue_run, Hs, Hu.
  rewrite getOwnedCampaign_run in Hc. cbn [snd] in Hc. cbv zeta.
  destruct (find (campaign_filter _ _) _) as [c'|]; [|discriminate].
  set (w := issue_under (server.updateIssue.id i)
              (server.updateIssue.campaignId i) (App.id u)).
  assert (W : forall e, w e = true <-> under e)
    by (intros e; apply issue_under_spec).
  conjuncts.
  - intros N.
    assert (F : find w (issues (tables d)) = None).
    { apply find_none_iff. intros e Hin.
      destruct (w e) eqn:E; [|reflexivity].
      apply W in E. now elim (N e Hin). }
    rewrite (one_row_missing issues_table w _ _ F).
    cbn. rewrite <- app_assoc. now conjuncts.
  - intros (e & Hin & He).
    destruct (one_row _ _ _ _) as [x|y] eqn:O; cbn [snd].
    + intros E. injection E as ->.
      apply one_row_inl_missing in O. cbn [rows issues_table] in O.
      apply W in He. rewrite (find_none _ _ O e Hin) in He. discriminate He.
    + destruct (negb _); cbn [snd]; [discriminate|].
      unfold one_reply, db.returned. destruct (forallb _ _); discriminate.
  - intros (e & Hin & He) Si Sx.
    destruct (find_of_exists w (issues (tables d))) as [y F].
    { exists e. split; [exact Hin|]. now apply W. }
    rewrite (one_row_readable issues_table w _ _ y F).
    2:{ apply forallb_forall. intros x Hx. apply filter_In in Hx as [Hx Fx].
        apply W in Fx as [Fx _]. specialize (Sx x Hx Fx).
        unfold issue_safe in Sx. cbn [readable issues_table].
        unfold NewsletterIssues.readable.
        destruct (NewsletterIssues.issueNumber x) as [n|]; [|reflexivity].
        now apply safe_number_readable. }
    assert (NewsletterIssues.finite_set (issue_set rt i) = true) as ->.
    { unfold NewsletterIssues.finite_set. cbn [issue_set
        NewsletterIssues.set_issueNumber].
      destruct (server.updateIssue.issueNumber i) as [n|]; [|reflexivity].
      now apply safe_number_readable. }
    cbn [negb snd]. rewrite one_reply_readable; [eexists; reflexivity|].
    apply forallb_forall. intros x Hx. apply in_map_iff in Hx as (x0 & <- & Hx0).
    apply filter_In in Hx0 as [Hx0 Fx0]. apply eq_filter_spec in Fx0.
    cbn [readable issues_table]. apply assigned_issue_readable; [exact Si|].
    now apply Sx.
Qed.

(** The caller owns the issue and both campaigns, but the issue is under
    the other campaign: NOT_FOUND, nothing moved. *)
Lemma updateIssue_requires_issue_under_campaign_witness :
  snd (server.updateIssue.action midnight misfiled (signed_in alice)
         with_second_campaign)
  = inl (ActionError NOT_FOUND "Issue not found.")
  /\ tables (fst (server.updateIssue.action midnight misfiled (signed_in alice)
                    with_second_campaign))
     = tables with_second_campaign.
Proof.
  destruct (proj1 (updateIssue_requires_issue_under_campaign midnight misfiled
                     (signed_in alice) with_second_campaign alice _
                     Logic.eq_refl Logic.eq_refl Logic.eq_refl))
    as (E & T & _).
  - intros e [<-|[]] (_ & Hc & _). discriminate Hc.
  - split; [exact E|exact T].
Defined.
(** ** Timestamps *)

(** C9. A successful [updateCampaign] or [updateIssue] leaves the time of
    the call ([new Date()]) in [updatedAt] of every row with the key of the
    input, and of the row it returns, and keeps [createdAt]; a successful
    [updateBlock] keeps [createdAt] of every block, the only timestamp a
    block has, and touches no campaign and no issue. *)
Theorem update_refreshes_updatedAt (rt : Runtime) (context : ActionAPIContext)
  (d d' : Database) :
  (forall i reply,
     server.updateCampaign.action rt i context d = (d', inr reply) ->
     updated_in_place NewsletterCampaigns.id (server.updateCampaign.id i)
       (fun before after =>
          NewsletterCampaigns.updatedAt after = now rt
          /\ NewsletterCampaigns.createdAt after
             = NewsletterCampaigns.createdAt before)
       (campaigns (tables d)) (campaigns (tables d'))
     /\ exists after,
          data reply = Some after
          /\ NewsletterCampaigns.updatedAt after = now rt)
  /\
  (forall i reply,
     server.updateIssue.action rt i context d = (d', inr reply) ->
     updated_in_place NewsletterIssues.id (server.updateIssue.id i)
       (fun before after =>
          NewsletterIssues.updatedAt after = now rt
          /\ NewsletterIssues.createdAt after
             = NewsletterIssues.createdAt before)
       (issues (tables d)) (issues (tables d'))
     /\ exists after,
          data reply = Some after
          /\ NewsletterIssues.updatedAt after = now rt)
  /\
  (forall i reply,
     server.updateBlock.action rt i context d = (d', inr reply) ->
     map NewsletterBlocks.createdAt (blocks (tables d'))
     = map NewsletterBlocks.createdAt (blocks (tables d))
     /\ campaigns (tables d') = campaigns (tables d)
     /\ issues (tables d') = issues (tables d)
     /\ exists before after,
          In before (blocks (tables d))
          /\ data reply = Some after
          /\ NewsletterBlocks.createdAt after
             = NewsletterBlocks.createdAt before).
Proof.
  split; [|split]; intros i reply H.
  - apply updateCampaign_success in H.
    destruct H as (u & c & _ & Hc & Ht & ->). rewrite Ht; cbn [campaigns].
    split.
    + apply update_where_key. intros r. split; reflexivity.
    + destruct (returned_row NewsletterCampaigns.id (server.updateCampaign.id i)
                  _ (NewsletterCampaigns.assign (campaign_set rt i)) _ _ Hc)
        as (b & _ & _ & E).
      { intros y Hy. now apply campaign_filter_spec in Hy as [? _]. }
      exists (NewsletterCampaigns.assign (campaign_set rt i) b).
      split; [exact E|reflexivity].
  - apply updateIssue_success in H.
    destruct H as (u & e & _ & He & Ht & ->).
    rewrite Ht; cbn [issues]. split.
    + apply update_where_key. intros r. split; reflexivity.
    + destruct (returned_row NewsletterIssues.id (server.updateIssue.id i)
                  _ (NewsletterIssues.assign (issue_set rt i)) _ _ He)
        as (b & _ & _ & E).
      { intros y Hy. now apply issue_under_spec in Hy as [? _]. }
      exists (NewsletterIssues.assign (issue_set rt i) b).
      split; [exact E|reflexivity].
  - apply updateBlock_success in H.
    destruct H as (e & He & Ht & ->).
    rewrite Ht; cbn [campaigns issues blocks]. conjuncts; try reflexivity.
    + apply assign_where_column. reflexivity.
    + destruct (returned_row NewsletterBlocks.id (server.updateBlock.id i)
                  _ (NewsletterBlocks.assign (block_set i)) _ _ He)
        as (b & Hin & _ & E).
      { intros y Hy. now apply block_under_spec in Hy as [? _]. }
      exists b, (NewsletterBlocks.assign (block_set i) b).
      conjuncts; [exact Hin|exact E|reflexivity].
Qed.

(** The three updates on the database of the scenario. *)
Lemma update_refreshes_updatedAt_witness :
  (exists d' reply after,
     server.updateCampaign.action midnight rename_campaign (signed_in alice)
       with_block = (d', inr reply)
     /\ data reply = Some after
     /\ NewsletterCampaigns.updatedAt after = now midnight)
  /\ (exists d' reply after,
        server.updateIssue.action midnight mark_ready (signed_in alice)
          with_block = (d', inr reply)
        /\ data reply = Some after
        /\ NewsletterIssues.updatedAt after = now midnight)
  /\ (exists d' reply,
        server.updateBlock.action midnight say_hi (signed_in alice)
          with_block = (d', inr reply)
        /\ map NewsletterBlocks.createdAt (blocks (tables d'))
           = map NewsletterBlocks.createdAt (blocks (tables with_block))).
Proof.
  split; [|split].
  - destruct (proj1 (update_refreshes_updatedAt midnight (signed_in alice)
                       with_block _) rename_campaign _ Logic.eq_refl)
      as (_ & after & E & T).
    eexists _, _, after. split; [lazy; reflexivity|]. split; [exact E|exact T].
  - destruct (proj1 (proj2 (update_refreshes_updatedAt midnight
                              (signed_in alice) with_block _))
                mark_ready _ Logic.eq_refl)
      as (_ & after & E & T).
    eexists _, _, after. split; [lazy; reflexivity|]. split; [exact E|exact T].
  - eexists _, _. split; [lazy; reflexivity|].
    refine (proj1 (proj2 (proj2 (update_refreshes_updatedAt midnight
                                   (signed_in alice) with_block _))
                     say_hi _ Logic.eq_refl)).
Defined.

(** ** Listing *)

(** C10. In the reply of a successful [listCampaigns], [listIssues] or
    [listBlocks], [total] is the number of rows in [items]. *)
Theorem list_total_counts_items (rt : Runtime) (context : ActionAPIContext)
  (d d' : Database) :
  (forall i reply,
     server.listCampaigns.action rt i context d = (d', inr reply) ->
     total (data reply) = length (items (data reply)))
  /\ (forall i reply,
        server.listIssues.action rt i context d = (d', inr reply) ->
        total (data reply) = length (items (data reply)))
  /\ (forall i reply,
        server.listBlocks.action rt i context d = (d', inr reply) ->
        total (data reply) = length (items (data reply))).
Proof.
  split; [|split]; intros i reply.
  - rewrite listCampaigns_run.
    destruct (session context); [|discriminate].
    intros H; inversion H; reflexivity.
  - rewrite listIssues_run.
    destruct (server.listIssues.schema i); [|discriminate].
    destruct (session context); [|discriminate]. cbv zeta.
    destruct (find _ _); [|discriminate].
    intros H. injection H as _ R. now apply listing_reply_inr in R as ->.
  - rewrite listBlocks_run.
    destruct (server.listBlocks.schema i); [|discriminate].
    destruct (session context); [|discriminate]. cbv zeta.
    destruct (resolve_issue _ _ _); [discriminate|].
    destruct (find (campaign_filter _ _) _); [|discriminate].
    intros H. injection H as _ R. now apply listing_reply_inr in R as ->.
Qed.

(** The three listings on the database of the scenario. *)
Lemma list_total_counts_items_witness :
  (exists d' reply,
     server.listCampaigns.action midnight tt (signed_in alice) with_block
     = (d', inr reply)
     /\ total (data reply) = length (items (data reply)))
  /\ (exists d' reply,
        server.listIssues.action midnight under_campaign_one (signed_in alice)
          with_block = (d', inr reply)
        /\ total (data reply) = length (items (data reply)))
  /\ (exists d' reply,
        server.listBlocks.action midnight in_issue_one (signed_in alice)
          with_block = (d', inr reply)
        /\ total (data reply) = length (items (data reply))).
Proof.
  split; [|split]; eexists _, _; (split; [lazy; reflexivity|]).
  - refine (proj1 (list_total_counts_items midnight (signed_in alice)
                     with_block _) tt _ Logic.eq_refl).
  - refine (proj1 (proj2 (list_total_counts_items midnight (signed_in alice)
                            with_block _)) under_campaign_one _ Logic.eq_refl).
  - refine (proj2 (proj2 (list_total_counts_items midnight (signed_in alice)
                            with_block _)) in_issue_one _ Logic.eq_refl).
Defined.

(** * Further properties of the handlers *)

(** ** Helpers *)

Lemma delete_nothing {R} (w : R -> bool) (l : list R) :
  (length (filter w l) =? 0)%nat = true ->
  filter (fun r => negb (w r)) l = l.
Proof.
  intros L. apply Nat.eqb_eq, length_zero_iff_nil in L.
  apply filter_nothing. intros x Hx.
  destruct (w x) eqn:E; [|reflexivity].
  assert (In x (filter w l)) as H by (apply filter_In; now split).
  rewrite L in H. destruct H.
Qed.

Lemma same_rows (t : Tables) :
  {| campaigns := campaigns t; issues := issues t; blocks := blocks t |} = t.
Proof. now destruct t. Qed.

Lemma min_one_nonempty (s : string) : z.min 1 s = true <-> s <> "".
Proof.
  unfold z.min. destruct s; cbn; split; intros H; congruence.
Qed.

Lemma one_row_inl {R S} (T : Table R S) (w : R -> bool) (missing e : Failure)
  (t : Tables) :
  one_row T w missing t = inl e ->
  e = RangeError UnsafeInteger
  \/ (e = missing /\ find w (rows T t) = None).
Proof.
  unfold one_row, db.returned. destruct (forallb _ _).
  - rewrite first_filter. destruct (find w (rows T t)); [discriminate|].
    intros H. injection H as <-. now right.
  - intros H. injection H as <-. now left.
Qed.

Lemma one_reply_inl {R S} (T : Table R S) (l : list R) (e : Failure) :
  one_reply T l = inl e -> e = RangeError UnsafeInteger.
Proof.
  unfold one_reply, db.returned. destruct (forallb _ _); [discriminate|].
  intros H. now injection H as <-.
Qed.

Lemma listing_reply_inl {R S} (T : Table R S) (l : list R) (e : Failure) :
  listing_reply T l = inl e -> e = RangeError UnsafeInteger.
Proof.
  unfold listing_reply, db.returned. destruct (forallb _ _); [discriminate|].
  intros H. now injection H as <-.
Qed.

Lemma resolve_issue_same (issueId userId : string) (t t' : Tables) :
  issues t' = issues t ->
  resolve_issue issueId userId t' = resolve_issue issueId userId t.
Proof.
  intros E. unfold resolve_issue, one_row. cbn [rows issues_table].
  now rewrite E.
Qed.

(** ** A call that fails *)

(** X1. A call that fails leaves the three tables as they were, whatever
    the action, unless the failure is the client refusing an unsafe integer
    in a row that comes back: that refusal can follow an [insert] or an
    [update] that has run.  Every other failure (input error, UNAUTHORIZED,
    NOT_FOUND, a refused key, an argument that is not finite) has no
    effect, including the NOT_FOUND of [deleteBlock], which is thrown only
    after its [delete] statement ran. *)
Theorem failed_call_keeps_rows (rt : Runtime) (context : ActionAPIContext)
  (q : Request) (d d' : Database) (e : Failure) :
  call rt context q d = (d', inl e) ->
  e <> RangeError UnsafeInteger ->
  tables d' = tables d.
Proof.
  intros H Ne.
  assert (Done : forall (x : Database) (f : Failure),
            tables x = tables d -> (x, @inl Failure Response f) = (d', inl e) ->
            tables d' = tables d).
  { intros x f Hx E. now injection E as <- _. }
  assert (Back : forall (x : Database) (m : Failure + Response),
            (m = inl e -> e = RangeError UnsafeInteger) ->
            (x, m) = (d', inl e) -> tables d' = tables d).
  { intros x m Hm E. injection E as _ E. now elim Ne; apply Hm. }
  revert H. destruct q; cbn [call]; rewrite fmap_run.
  - rewrite createCampaign_run.
    destruct (server.createCampaign.schema i); [|now apply Done].
    destruct (session context); [|now apply Done]. cbv zeta.
    destruct (key_taken _ _ _); cbn [fst snd]; [now apply Done|discriminate].
  - rewrite updateCampaign_run.
    destruct (server.updateCampaign.schema i); [|now apply Done].
    destruct (session context); [|now apply Done]. cbv zeta.
    destruct (find _ _); cbn [fst snd]; [discriminate|now apply Done].
  - rewrite listCampaigns_run.
    destruct (session context); cbn [fst snd]; [discriminate|now apply Done].
  - rewrite createIssue_run.
    destruct (server.createIssue.schema i); [|now apply Done].
    destruct (session context); [|now apply Done]. cbv zeta.
    destruct (find _ _); [|now apply Done].
    destruct (negb _); [now apply Done|].
    destruct (key_taken _ _ _); [now apply Done|]. cbn [fst snd].
    apply Back. destruct (one_reply _ _) as [f|] eqn:O; [|discriminate].
    intros E. injection E as <-. now apply one_reply_inl in O.
  - rewrite updateIssue_run.
    destruct (server.updateIssue.schema i); [|now apply Done].
    destruct (session context); [|now apply Done]. cbv zeta.
    destruct (find (campaign_filter _ _) _); [|now apply Done].
    destruct (one_row _ _ _ _); [now apply Done|].
    destruct (negb _); [now apply Done|]. cbn [fst snd].
    apply Back. destruct (one_reply _ _) as [f|] eqn:O; [|discriminate].
    intros E. injection E as <-. now apply one_reply_inl in O.
  - rewrite listIssues_run.
    destruct (server.listIssues.schema i); [|now apply Done].
    destruct (session context); [|now apply Done]. cbv zeta.
    destruct (find _ _); [|now apply Done]. cbn [fst snd].
    destruct (listing_reply _ _); [now apply Done|discriminate].
  - rewrite createBlock_run.
    destruct (server.createBlock.schema i); [|now apply Done].
    destruct (session context); [|now apply Done]. cbv zeta.
    destruct (resolve_issue _ _ _); [now apply Done|].
    destruct (find (campaign_filter _ _) _); [|now apply Done].
    destruct (key_taken _ _ _); [now apply Done|]. cbn [fst snd].
    apply Back. destruct (one_reply _ _) as [f|] eqn:O; [|discriminate].
    intros E. injection E as <-. now apply one_reply_inl in O.
  - rewrite updateBlock_run.
    destruct (server.updateBlock.schema i); [|now apply Done].
    destruct (session context); [|now apply Done]. cbv zeta.
    destruct (resolve_issue _ _ _); [now apply Done|].
    destruct (find (campaign_filter _ _) _); [|now apply Done].
    destruct (one_row _ _ _ _); [now apply Done|]. cbn [fst snd].
    apply Back. destruct (one_reply _ _) as [f|] eqn:O; [|discriminate].
    intros E. injection E as <-. now apply one_reply_inl in O.
  - rewrite deleteBlock_run.
    destruct (server.deleteBlock.schema i); [|now apply Done].
    destruct (session context); [|now apply Done]. cbv zeta.
    destruct (resolve_issue _ _ _); [now apply Done|].
    destruct (find (campaign_filter _ _) _); [|now apply Done].
    destruct (_ =? 0)%nat eqn:L; cbn [fst snd]; [|discriminate].
    apply Done. cbn [tables with_tables].
    rewrite (delete_nothing _ _ L). apply same_rows.
  - rewrite listBlocks_run.
    destruct (server.listBlocks.schema i); [|now apply Done].
    destruct (session context); [|now apply Done]. cbv zeta.
    destruct (resolve_issue _ _ _); [now apply Done|].
    destruct (find (campaign_filter _ _) _); [|now apply Done]. cbn [fst snd].
    destruct (listing_reply _ _); [now apply Done|discriminate].
Qed.

(** Deleting a block that is not there: the statement ran, the call
    failed, the rows are those of before. *)
Lemma failed_call_keeps_rows_witness :
  exists d' e,
    call midnight (signed_in alice) (DeleteBlock drop_block) after_delete
    = (d', inl e)
    /\ tables d' = tables after_delete.
Proof.
  eexists _, _. split; [lazy; reflexivity|].
  refine (failed_call_keeps_rows midnight (signed_in alice)
            (DeleteBlock drop_block) after_delete _ _ Logic.eq_refl _).
  discriminate.
Defined.
(** ** What reaches the database *)

(** X2. The three list actions never write: whether they succeed or fail,
    the tables are those of before, and everything they added to the
    journal of the database is a [select]. *)
Theorem listing_only_reads (rt : Runtime) (context : ActionAPIContext)
  (d : Database) :
  (forall i,
     let r := server.listCampaigns.action rt i context d in
     tables (fst r) = tables d
     /\ exists l, journal (fst r) = journal d ++ l
                  /\ forallb is_select l = true)
  /\ (forall i,
        let r := server.listIssues.action rt i context d in
        tables (fst r) = tables d
        /\ exists l, journal (fst r) = journal d ++ l
                     /\ forallb is_select l = true)
  /\ (forall i,
        let r := server.listBlocks.action rt i context d in
        tables (fst r) = tables d
        /\ exists l, journal (fst r) = journal d ++ l
                     /\ forallb is_select l = true).
Proof.
  assert (Nil : forall x : Database,
            tables x = tables x
            /\ exists l, journal x = journal x ++ l
                         /\ forallb is_select l = true).
  { intros x. split; [reflexivity|]. exists []. now rewrite app_nil_r. }
  split; [|split]; intros i; cbv zeta.
  - rewrite listCampaigns_run.
    destruct (session context); [|apply Nil]. cbn.
    split; [reflexivity|]. now exists [SELECT Campaigns].
  - rewrite listIssues_run.
    destruct (server.listIssues.schema i); [|apply Nil].
    destruct (session context); [|apply Nil]. cbv zeta.
    destruct (find _ _); cbn; (split; [reflexivity|]).
    + exists [SELECT Campaigns; SELECT Issues]. now rewrite <- app_assoc.
    + now exists [SELECT Campaigns].
  - rewrite listBlocks_run.
    destruct (server.listBlocks.schema i); [|apply Nil].
    destruct (session context); [|apply Nil]. cbv zeta.
    destruct (resolve_issue _ _ _); [cbn; split; [reflexivity|]|].
    + now exists [SELECT Issues].
    + destruct (find (campaign_filter _ _) _); cbn; (split; [reflexivity|]).
      * exists [SELECT Issues; SELECT Campaigns; SELECT Blocks].
        now rewrite <- !app_assoc.
      * exists [SELECT Issues; SELECT Campaigns]. now rewrite <- app_assoc.
Qed.

(** ** Databases the actions produce *)

(** X3. In every database the actions produce from the empty one, no two
    rows of a table share an id. *)
Theorem reachable_ids_unique (d : Database) :
  reachable d ->
  NoDup (map NewsletterCampaigns.id (campaigns (tables d)))
  /\ NoDup (map NewsletterIssues.id (issues (tables d)))
  /\ NoDup (map NewsletterBlocks.id (blocks (tables d))).
Proof.
  intros H. destruct (reachable_consistent d H) as [Pc Pi Pb _ _].
  now conjuncts.
Qed.

Lemma reachable_ids_unique_witness :
  NoDup (map NewsletterCampaigns.id (campaigns (tables with_second_campaign))).
Proof.
  refine (proj1 (reachable_ids_unique with_second_campaign _)).
  apply reachable_call. exact with_block_reachable.
Defined.

(** X4. In every database the actions produce from the empty one, the
    chain of a block resolves: its issue is stored, the campaign of that
    issue is stored, and issue and campaign have the same [userId]. *)
Theorem reachable_chain_resolves (d : Database) (b : NewsletterBlocks.row) :
  reachable d -> In b (blocks (tables d)) ->
  exists i c,
    In i (issues (tables d)) /\ In c (campaigns (tables d))
    /\ NewsletterIssues.id i = NewsletterBlocks.issueId b
    /\ NewsletterCampaigns.id c = NewsletterIssues.campaignId i
    /\ NewsletterCampaigns.userId c = NewsletterIssues.userId i.
Proof.
  intros H Hb. destruct (reachable_consistent d H) as [_ _ _ Ch Fk].
  destruct (Fk b Hb) as (i & Hi & E).
  destruct (Ch i Hi) as (c & Hc & Hid & Hu).
  exists i, c. now conjuncts.
Qed.

Lemma reachable_chain_resolves_witness :
  exists i c,
    In i (issues (tables with_block)) /\ In c (campaigns (tables with_block))
    /\ NewsletterIssues.id i = "i1"
    /\ NewsletterCampaigns.id c = NewsletterIssues.campaignId i
    /\ NewsletterCampaigns.userId c = NewsletterIssues.userId i.
Proof.
  exact (reachable_chain_resolves with_block
           (new_block (runtime "b1" 30%Z) plain_block)
           with_block_reachable (or_introl Logic.eq_refl)).
Defined.

(** ** Creating a campaign *)

Lemma find_app_last {R} (p : R -> bool) (l : list R) (x : R) :
  (forall y, In y l -> p y = false) ->
  find p (l ++ [x]) = if p x then Some x else None.
Proof.
  induction l as [|y l IH]; cbn; intros H; [reflexivity|].
  rewrite (H y (or_introl Logic.eq_refl)). apply IH.
  intros z Hz. apply H. now right.
Qed.

Lemma createCampaign_success rt i context d d' reply :
  server.createCampaign.action rt i context d = (d', inr reply) ->
  exists u c,
    session context = Some u
    /\ server.createCampaign.schema i = true
    /\ key_taken NewsletterCampaigns.id (randomUUID rt) (campaigns (tables d))
       = false
    /\ reply = {| success := true; data := Some c |}
    /\ tables d' = {| campaigns := campaigns (tables d) ++ [c];
                      issues := issues (tables d);
                      blocks := blocks (tables d) |}
    /\ c = {| NewsletterCampaigns.id := randomUUID rt;
              NewsletterCampaigns.userId := App.id u;
              NewsletterCampaigns.name := server.createCampaign.name i;
              NewsletterCampaigns.description :=
                server.createCampaign.description i;
              NewsletterCampaigns.audienceDescription :=
                server.createCampaign.audienceDescription i;
              NewsletterCampaigns.senderName :=
                server.createCampaign.senderName i;
              NewsletterCampaigns.senderEmail :=
                server.createCampaign.senderEmail i;
              NewsletterCampaigns.defaultLanguage :=
                server.createCampaign.defaultLanguage i;
              NewsletterCampaigns.createdAt := now rt;
              NewsletterCampaigns.updatedAt := now rt |}.
Proof.
  rewrite createCampaign_run. intros H.
  destruct (server.createCampaign.schema i); [|discriminate].
  destruct (session context) as [u|]; [|discriminate]. cbv zeta in H.
  destruct (key_taken _ _ _) eqn:K; [discriminate|].
  inversion H; subst; clear H. eexists u, _. now conjuncts.
Qed.

Lemma createCampaign_schema_name i :
  server.createCampaign.schema i = true ->
  server.createCampaign.name i <> "".
Proof.
  unfold server.createCampaign.schema. rewrite !andb_true_iff.
  intros H. apply min_one_nonempty. tauto.
Qed.

(** X5. A successful [createCampaign] adds one campaign, after the
    campaigns that were there, and leaves issues and blocks untouched.  The
    stored campaign belongs to the caller, carries the name of the input,
    which is not empty, was created and updated at the same instant, and
    has an id no stored campaign had.  The campaign the call returns has
    the id of the stored one and the same two equal instants. *)
Theorem createCampaign_stores_owned_row (rt : Runtime)
  (i : server.createCampaign.input) (context : ActionAPIContext)
  (d d' : Database) (reply : Reply (option NewsletterCampaigns.row)) :
  server.createCampaign.action rt i context d = (d', inr reply) ->
  exists u stored returned,
    session context = Some u
    /\ data reply = Some returned
    /\ campaigns (tables d') = campaigns (tables d) ++ [stored]
    /\ issues (tables d') = issues (tables d)
    /\ blocks (tables d') = blocks (tables d)
    /\ NewsletterCampaigns.userId stored = App.id u
    /\ NewsletterCampaigns.name stored = server.createCampaign.name i
    /\ NewsletterCampaigns.name stored <> ""
    /\ NewsletterCampaigns.updatedAt stored
       = NewsletterCampaigns.createdAt stored
    /\ ~ In (NewsletterCampaigns.id stored)
            (map NewsletterCampaigns.id (campaigns (tables d)))
    /\ NewsletterCampaigns.id returned = NewsletterCampaigns.id stored
    /\ NewsletterCampaigns.updatedAt returned
       = NewsletterCampaigns.createdAt returned.
Proof.
  intros H. apply createCampaign_success in H.
  destruct H as (u & c & Hu & Hs & K & -> & Ht & ->).
  eexists u, _, _. rewrite Ht. cbn.
  conjuncts; try reflexivity; try assumption.
  - now apply createCampaign_schema_name.
  - now apply key_taken_spec.
Qed.

Lemma createCampaign_stores_owned_row_witness :
  exists d' reply stored returned,
    server.createCampaign.action (runtime "c1" 10%Z) weekly_dev_tips
      (signed_in alice) empty_database = (d', inr reply)
    /\ data reply = Some returned
    /\ campaigns (tables d') = [stored]
    /\ NewsletterCampaigns.userId stored = "alice"
    /\ NewsletterCampaigns.updatedAt returned
       = NewsletterCampaigns.createdAt returned.
Proof.
  destruct (createCampaign_stores_owned_row (runtime "c1" 10%Z)
              weekly_dev_tips (signed_in alice) empty_database _ _
              Logic.eq_refl)
    as (u & stored & returned & Hu & E & A & _ & _ & Ho & _ & _ & _ & _
        & _ & T).
  eexists _, _, stored, returned. split; [lazy; reflexivity|].
  injection Hu as <-. now conjuncts.
Defined.

(** X6. Create, then resolve.  After a successful [createCampaign] the
    resolver finds the returned campaign for its creator, by its id; for
    any other user the same id is NOT_FOUND. *)
Theorem created_campaign_resolves_for_creator_only (rt : Runtime)
  (i : server.createCampaign.input) (context : ActionAPIContext)
  (d d' : Database) (reply : Reply (option NewsletterCampaigns.row))
  (u : App.User) (c : NewsletterCampaigns.row) :
  server.createCampaign.action rt i context d = (d', inr reply) ->
  session context = Some u ->
  data reply = Some c ->
  snd (getOwnedCampaign (NewsletterCampaigns.id c) (App.id u) d') = inr c
  /\ forall other,
       other <> App.id u ->
       snd (getOwnedCampaign (NewsletterCampaigns.id c) other d')
       = inl (ActionError NOT_FOUND "Campaign not found.").
Proof.
  intros H Hu E. apply createCampaign_success in H.
  destruct H as (u' & c' & Hu' & _ & K & -> & Ht & Hc).
  rewrite Hu in Hu'. injection Hu' as <-. cbn in E. injection E as E.
  rewrite E in Ht, Hc. clear E c'.
  assert (Hid : NewsletterCampaigns.id c = randomUUID rt) by now rewrite Hc.
  assert (Hown : NewsletterCampaigns.userId c = App.id u) by now rewrite Hc.
  apply key_taken_spec in K.
  assert (Old : forall v y, In y (campaigns (tables d)) ->
                  campaign_filter (NewsletterCampaigns.id c) v y = false).
  { intros v y Hy. destruct (campaign_filter _ _ y) eqn:F; [|reflexivity].
    apply campaign_filter_spec in F as [F _]. elim K.
    rewrite <- Hid, <- F. now apply in_map. }
  split; [|intros other Ho]; rewrite getOwnedCampaign_run, Ht; cbn [snd campaigns];
    rewrite (find_app_last _ _ _ (Old _)).
  - assert (campaign_filter (NewsletterCampaigns.id c) (App.id u) c = true)
      as -> by now apply campaign_filter_spec.
    reflexivity.
  - destruct (campaign_filter _ _ c) eqn:F; [|reflexivity].
    apply campaign_filter_spec in F as [_ F]. congruence.
Qed.

Lemma created_campaign_resolves_for_creator_only_witness :
  snd (getOwnedCampaign "c1" "alice" with_campaign) = inr campaign_one
  /\ snd (getOwnedCampaign "c1" "bob" with_campaign)
     = inl (ActionError NOT_FOUND "Campaign not found.").
Proof.
  destruct (created_campaign_resolves_for_creator_only (runtime "c1" 10%Z)
              weekly_dev_tips (signed_in alice) empty_database _ _ alice
              campaign_one Logic.eq_refl Logic.eq_refl Logic.eq_refl)
    as [Own Other].
  split; [exact Own|]. apply (Other "bob"). discriminate.
Defined.

(** ** Ids the caller does not own *)

Lemma not_owned_campaign (campaignId userId : string) (t : Tables) :
  (forall c, In c (campaigns t) -> ~ owns_campaign campaignId userId c) ->
  find (campaign_filter campaignId userId) (campaigns t) = None.
Proof.
  intros N. apply find_none_iff. intros c Hc.
  destruct (campaign_filter _ _ c) eqn:F; [|reflexivity].
  apply campaign_filter_spec in F. now elim (N c Hc).
Qed.

Lemma not_owned_issue (issueId userId : string) (t : Tables) :
  (forall i, In i (issues t) -> ~ owns_issue issueId userId i) ->
  resolve_issue issueId userId t
  = inl (ActionError NOT_FOUND "Newsletter issue not found.").
Proof.
  intros N. apply one_row_missing. apply find_none_iff. intros i Hi.
  destruct (issue_filter _ _ i) eqn:F; [|reflexivity].
  apply issue_filter_spec in F. now elim (N i Hi).
Qed.

(** X7. A signed-in caller names a campaign id under which no campaign
    of the caller is stored (unknown, or somebody else's).  Then
    [updateCampaign], [createIssue], [updateIssue] and [listIssues], given
    an input that passes their schema, all stop at the resolver: one read,
    NOT_FOUND, the tables as they were. *)
Theorem campaign_of_another_user_not_found (rt : Runtime)
  (context : ActionAPIContext) (d : Database) (u : App.User)
  (campaignId : string) :
  session context = Some u ->
  (forall c, In c (campaigns (tables d)) ->
             ~ owns_campaign campaignId (App.id u) c) ->
  (forall i, server.updateCampaign.schema i = true ->
             server.updateCampaign.id i = campaignId ->
             server.updateCampaign.action rt i context d
             = (issue_stmt (SELECT Campaigns) d,
                inl (ActionError NOT_FOUND "Campaign not found.")))
  /\ (forall i, server.createIssue.schema i = true ->
                server.createIssue.campaignId i = campaignId ->
                server.createIssue.action rt i context d
                = (issue_stmt (SELECT Campaigns) d,
                   inl (ActionError NOT_FOUND "Campaign not found.")))
  /\ (forall i, server.updateIssue.schema i = true ->
                server.updateIssue.campaignId i = campaignId ->
                server.updateIssue.action rt i context d
                = (issue_stmt (SELECT Campaigns) d,
                   inl (ActionError NOT_FOUND "Campaign not found.")))
  /\ (forall i, server.listIssues.schema i = true ->
                server.listIssues.campaignId i = campaignId ->
                server.listIssues.action rt i context d
                = (issue_stmt (SELECT Campaigns) d,
                   inl (ActionError NOT_FOUND "Campaign not found."))).
Proof.
  intros Hu N. apply not_owned_campaign in N.
  conjuncts; intros i Hs Hid.
  - now rewrite updateCampaign_run, Hs, Hu, Hid, N.
  - now rewrite createIssue_run, Hs, Hu, Hid, N.
  - now rewrite updateIssue_run, Hs, Hu, Hid, N.
  - now rewrite listIssues_run, Hs, Hu, Hid, N.
Qed.

(** Bob tries to rename the campaign of Alice. *)
Lemma campaign_of_another_user_not_found_witness :
  server.updateCampaign.action midnight rename_campaign (signed_in bob)
    with_block
  = (issue_stmt (SELECT Campaigns) with_block,
     inl (ActionError NOT_FOUND "Campaign not found.")).
Proof.
  refine (proj1 (campaign_of_another_user_not_found midnight (signed_in bob)
                   with_block bob "c1" Logic.eq_refl _)
            rename_campaign Logic.eq_refl Logic.eq_refl).
  intros c [<-|[]] [_ H]. discriminate H.
Defined.

(** X8. A signed-in caller names an issue id under which no issue of the
    caller is stored.  Then [createBlock], [updateBlock], [deleteBlock] and
    [listBlocks], given an input that passes their schema, all stop at the
    first resolver: one read, NOT_FOUND, the tables as they were. *)
Theorem issue_of_another_user_not_found (rt : Runtime)
  (context : ActionAPIContext) (d : Database) (u : App.User)
  (issueId : string) :
  session context = Some u ->
  (forall i, In i (issues (tables d)) -> ~ owns_issue issueId (App.id u) i) ->
  (forall i, server.createBlock.schema i = true ->
             server.createBlock.issueId i = issueId ->
             server.createBlock.action rt i context d
             = (issue_stmt (SELECT Issues) d,
                inl (ActionError NOT_FOUND "Newsletter issue not found.")))
  /\ (forall i, server.updateBlock.schema i = true ->
                server.updateBlock.issueId i = issueId ->
                server.updateBlock.action rt i context d
                = (issue_stmt (SELECT Issues) d,
                   inl (ActionError NOT_FOUND "Newsletter issue not found.")))
  /\ (forall i, server.deleteBlock.schema i = true ->
                server.deleteBlock.issueId i = issueId ->
                server.deleteBlock.action rt i context d
                = (issue_stmt (SELECT Issues) d,
                   inl (ActionError NOT_FOUND "Newsletter issue not found.")))
  /\ (forall i, server.listBlocks.schema i = true ->
                server.listBlocks.issueId i = issueId ->
                server.listBlocks.action rt i context d
                = (issue_stmt (SELECT Issues) d,
                   inl (ActionError NOT_FOUND "Newsletter issue not found."))).
Proof.
  intros Hu N. apply not_owned_issue in N.
  conjuncts; intros i Hs Hid.
  - now rewrite createBlock_run, Hs, Hu, Hid, N.
  - now rewrite updateBlock_run, Hs, Hu, Hid, N.
  - now rewrite deleteBlock_run, Hs, Hu, Hid, N.
  - now rewrite listBlocks_run, Hs, Hu, Hid, N.
Qed.

(** Bob tries to delete the block of Alice. *)
Lemma issue_of_another_user_not_found_witness :
  server.deleteBlock.action midnight drop_block (signed_in bob) with_block
  = (issue_stmt (SELECT Issues) with_block,
     inl (ActionError NOT_FOUND "Newsletter issue not found.")).
Proof.
  refine (proj1 (proj2 (proj2
            (issue_of_another_user_not_found midnight (signed_in bob)
               with_block bob "i1" Logic.eq_refl _)))
            drop_block Logic.eq_refl Logic.eq_refl).
  intros i [<-|[]] [_ H]. discriminate H.
Defined.

(** ** The second resolver of the block handlers *)

Lemma chain_found (t : Tables) (issueId userId : string)
  (p : NewsletterIssues.row) :
  consistent t ->
  resolve_issue issueId userId t = inr p ->
  exists c,
    find (campaign_filter (NewsletterIssues.campaignId p) userId) (campaigns t)
    = Some c.
Proof.
  intros C F. apply one_row_inr in F as [F _].
  pose proof (find_some _ _ F) as [Hin Hp].
  apply issue_filter_spec in Hp as [_ Hu].
  destruct (issues_chain C p Hin) as (c & Hc & Ho).
  apply find_of_exists. exists c. split; [exact Hc|].
  apply campaign_filter_spec. now rewrite <- Hu.
Qed.

(** X9. The block handlers resolve the issue and then the campaign of
    the issue.  In a consistent database the second resolver never fails:
    no call of [createBlock], [updateBlock], [deleteBlock] or [listBlocks]
    ends with "Campaign not found.". *)
Theorem block_handlers_never_miss_campaign (rt : Runtime)
  (context : ActionAPIContext) (q : Request) (d : Database) :
  consistent (tables d) ->
  block_request q = true ->
  snd (call rt context q d)
  <> inl (ActionError NOT_FOUND "Campaign not found.").
Proof.
  intros C B.
  assert (Miss : forall issueId userId e,
            resolve_issue issueId userId (tables d) = inl e ->
            e <> ActionError NOT_FOUND "Campaign not found.").
  { intros issueId userId e F ->.
    apply one_row_inl in F as [F|[F _]]; discriminate F. }
  destruct q; try discriminate B; cbn [call];
    rewrite fmap_run; cbn [snd].
  - rewrite createBlock_run.
    destruct (server.createBlock.schema i); [|discriminate].
    destruct (session context) as [u|]; [|discriminate]. cbv zeta.
    destruct (resolve_issue _ _ _) as [e|p] eqn:F.
    { intros E. injection E as E. now apply Miss in F. }
    destruct (chain_found _ _ _ _ C F) as [c ->].
    destruct (key_taken _ _ _); [discriminate|]. cbn [snd].
    destruct (one_reply _ _) as [e|] eqn:O; [|discriminate].
    apply one_reply_inl in O as ->. discriminate.
  - rewrite updateBlock_run.
    destruct (server.updateBlock.schema i); [|discriminate].
    destruct (session context) as [u|]; [|discriminate]. cbv zeta.
    destruct (resolve_issue _ _ _) as [e|p] eqn:F.
    { intros E. injection E as E. now apply Miss in F. }
    destruct (chain_found _ _ _ _ C F) as [c ->].
    destruct (one_row _ _ _ _) as [e|] eqn:W; cbn [snd].
    { apply one_row_inl in W as [->|[-> _]]; discriminate. }
    destruct (one_reply _ _) as [e|] eqn:O; [|discriminate].
    apply one_reply_inl in O as ->. discriminate.
  - rewrite deleteBlock_run.
    destruct (server.deleteBlock.schema i); [|discriminate].
    destruct (session context) as [u|]; [|discriminate]. cbv zeta.
    destruct (resolve_issue _ _ _) as [e|p] eqn:F.
    { intros E. injection E as E. now apply Miss in F. }
    destruct (chain_found _ _ _ _ C F) as [c ->].
    destruct (_ =? 0)%nat; discriminate.
  - rewrite listBlocks_run.
    destruct (server.listBlocks.schema i); [|discriminate].
    destruct (session context) as [u|]; [|discriminate]. cbv zeta.
    destruct (resolve_issue _ _ _) as [e|p] eqn:F.
    { intros E. injection E as E. now apply Miss in F. }
    destruct (chain_found _ _ _ _ C F) as [c ->]. cbn [snd].
    destruct (listing_reply _ _) as [e|] eqn:O; [|discriminate].
    apply listing_reply_inl in O as ->. discriminate.
Qed.

Lemma block_handlers_never_miss_campaign_witness :
  snd (call midnight (signed_in alice) (ListBlocks in_issue_one) with_block)
  <> inl (ActionError NOT_FOUND "Campaign not found.").
Proof.
  exact (block_handlers_never_miss_campaign midnight (signed_in alice)
           (ListBlocks in_issue_one) with_block
           (reachable_consistent _ with_block_reachable) Logic.eq_refl).
Defined.

(** ** What a listing holds *)



(** ** One call after another *)



Lemma deleteBlock_success rt i context d d' ack :
  server.deleteBlock.action rt i context d = (d', inr ack) ->
  exists u p c,
    server.deleteBlock.schema i = true
    /\ session context = Some u
    /\ resolve_issue (server.deleteBlock.issueId i) (App.id u) (tables d)
       = inr p
    /\ find (campaign_filter (NewsletterIssues.campaignId p) (App.id u))
            (campaigns (tables d)) = Some c
    /\ tables d' =
       {| campaigns := campaigns (tables d);
          issues := issues (tables d);
          blocks :=
            filter (fun r => negb (block_under (server.deleteBlock.id i)
                                     (server.deleteBlock.issueId i) r))
                   (blocks (tables d)) |}.
Proof.
  rewrite deleteBlock_run. intros H.
  destruct (server.deleteBlock.schema i); [|discriminate].
  destruct (session context) as [u|]; [|discriminate]. cbv zeta in H.
  destruct (resolve_issue _ _ _) as [e|p] eqn:Hp; [discriminate|].
  destruct (find (campaign_filter _ _) _) as [c|] eqn:Hc; [|discriminate].
  destruct (_ =? 0)%nat; [discriminate|].
  inversion H; subst; clear H. exists u, p, c. now conjuncts.
Qed.

Lemma updateBlock_success_steps rt i context d d' reply :
  server.updateBlock.action rt i context d = (d', inr reply) ->
  exists u p c e,
    server.updateBlock.schema i = true
    /\ session context = Some u
    /\ resolve_issue (server.updateBlock.issueId i) (App.id u) (tables d)
       = inr p
    /\ find (campaign_filter (NewsletterIssues.campaignId p) (App.id u))
            (campaigns (tables d)) = Some c
    /\ one_row blocks_table
         (block_under (server.updateBlock.id i) (server.updateBlock.issueId i))
         (ActionError NOT_FOUND "Block not found.") (tables d) = inr e
    /\ one_reply blocks_table
         (map (NewsletterBlocks.assign (block_set i))
            (filter (db.eq NewsletterBlocks.id (server.updateBlock.id i))
               (blocks (tables d)))) = inr reply.
Proof.
  rewrite updateBlock_run. intros H.
  destruct (server.updateBlock.schema i); [|discriminate].
  destruct (session context) as [u|]; [|discriminate]. cbv zeta in H.
  destruct (resolve_issue _ _ _) as [x|p] eqn:Hp; [discriminate|].
  destruct (find (campaign_filter _ _) _) as [c|] eqn:Hc; [|discriminate].
  destruct (one_row _ _ _ _) as [x|e] eqn:He; [discriminate|].
  injection H as _ H. exists u, p, c, e. now conjuncts.
Qed.

Lemma filter_map_stable {R} (p : R -> bool) (g : R -> R) (l : list R) :
  (forall r, p (g r) = p r) ->
  filter p (map g l) = map g (filter p l).
Proof.
  intros H. induction l as [|x l IH]; cbn; [reflexivity|].
  rewrite H. destruct (p x); cbn; now rewrite IH.
Qed.

Lemma map_filter_ext {R} (p : R -> bool) (f g : R -> R) (l : list R) :
  (forall r, p r = true -> g r = f r) ->
  map g (filter p l) = map f (filter p l).
Proof.
  intros H. apply map_ext_in. intros r Hr.
  apply filter_In in Hr as [_ Hr]. now apply H.
Qed.

Lemma filter_cleared {R} (w : R -> bool) (l : list R) :
  filter w (filter (fun r => negb (w r)) l) = [].
Proof.
  induction l as [|x l IH]; cbn; [reflexivity|].
  destruct (w x) eqn:E; cbn; [exact IH|]. now rewrite E.
Qed.

Lemma find_map_stable {R} (p : R -> bool) (g : R -> R) (l : list R) :
  (forall r, p (g r) = p r) ->
  find p (map g l) = option_map g (find p l).
Proof.
  intros H. induction l as [|x l IH]; cbn; [reflexivity|].
  rewrite H. destruct (p x); [reflexivity|exact IH].
Qed.

Lemma coalesce_twice {A} (x : option A) (y : A) :
  coalesce x (coalesce x y) = coalesce x y.
Proof. now destruct x. Qed.

Lemma assign_nullable_twice {A} (x y : option A) :
  assign_nullable x (assign_nullable x y) = assign_nullable x y.
Proof. now destruct x. Qed.

Lemma block_assign_twice s r :
  NewsletterBlocks.assign s (NewsletterBlocks.assign s r)
  = NewsletterBlocks.assign s r.
Proof.
  unfold NewsletterBlocks.assign; cbn.
  now rewrite coalesce_twice, !assign_nullable_twice.
Qed.



(** X12. Delete, then delete again.  After a successful [deleteBlock] no
    stored block has both the id and the [issueId] of the input, and the
    same call by the same caller fails with NOT_FOUND and changes
    nothing. *)
Theorem deleted_block_is_gone (rt rt' : Runtime)
  (i : server.deleteBlock.input) (context : ActionAPIContext)
  (d d' : Database) (ack : Ack) :
  server.deleteBlock.action rt i context d = (d', inr ack) ->
  (forall b, In b (blocks (tables d')) ->
             ~ (NewsletterBlocks.id b = server.deleteBlock.id i
                /\ NewsletterBlocks.issueId b = server.deleteBlock.issueId i))
  /\ snd (server.deleteBlock.action rt' i context d')
     = inl (ActionError NOT_FOUND "Block not found.")
  /\ tables (fst (server.deleteBlock.action rt' i context d')) = tables d'.
Proof.
  intros H. apply deleteBlock_success in H.
  destruct H as (u & p & c & Hs & Hu & Hp & Hc & Ht).
  split.
  - intros b Hb Hw. rewrite Ht in Hb. cbn [blocks] in Hb.
    apply filter_In in Hb as [_ Hb]. apply block_under_spec in Hw.
    now rewrite Hw in Hb.
  - rewrite deleteBlock_run, Hs, Hu. cbv zeta.
    rewrite (resolve_issue_same _ _ (tables d) (tables d')), Hp
      by now rewrite Ht.
    rewrite Ht. cbn [campaigns issues blocks tables]. rewrite Hc.
    rewrite filter_cleared. cbn [length Nat.eqb fst snd tables with_tables].
    split; [reflexivity|]. f_equal.
    apply filter_nothing. intros b Hb.
    apply filter_In in Hb as [_ Hb]. now apply negb_true_iff in Hb.
Qed.

Lemma deleted_block_is_gone_witness :
  snd (server.deleteBlock.action midnight drop_block (signed_in alice)
         after_delete)
  = inl (ActionError NOT_FOUND "Block not found.").
Proof.
  exact (proj1 (proj2 (deleted_block_is_gone midnight midnight drop_block
                         (signed_in alice) with_block after_delete
                         {| ack_success := true |} Logic.eq_refl))).
Defined.

(** X13. Update, then update again.  [updateBlock] sets no timestamp,
    so it is idempotent: after a successful call the same call by the same
    caller succeeds, returns the same row and leaves the tables as the
    first call left them. *)
Theorem updateBlock_twice (rt rt' : Runtime) (i : server.updateBlock.input)
  (context : ActionAPIContext) (d d' : Database)
  (reply : Reply (option NewsletterBlocks.row)) :
  server.updateBlock.action rt i context d = (d', inr reply) ->
  snd (server.updateBlock.action rt' i context d') = inr reply
  /\ tables (fst (server.updateBlock.action rt' i context d')) = tables d'.
Proof.
  intros H. pose proof (updateBlock_success_steps _ _ _ _ _ _ H)
    as (u & p & c & e & Hs & Hu & Hp & Hc & He & Hr).
  apply updateBlock_success in H. destruct H as (_ & _ & Ht & _).
  apply one_row_inr in He as [He _]. cbn [rows blocks_table] in He.
  pose proof (one_reply_inr _ _ _ Hr) as [_ Hf].
  cbn [readable blocks_table] in Hf.
  set (f := NewsletterBlocks.assign (block_set i)) in *.
  set (g := fun r => if db.eq NewsletterBlocks.id (server.updateBlock.id i) r
                     then f r else r).
  assert (Gid : forall (w : NewsletterBlocks.row -> bool) r,
            (forall x, w (f x) = w x) -> w (g r) = w r).
  { intros w r Hw. unfold g. destruct (db.eq _ _ r); [apply Hw|reflexivity]. }
  assert (Gf : forall r,
            db.eq NewsletterBlocks.id (server.updateBlock.id i) r = true ->
            g r = f r).
  { intros r E. unfold g. now rewrite E. }
  assert (Gg : forall r, g (g r) = g r).
  { intros r. unfold g. destruct (db.eq _ _ r) eqn:E.
    - assert (db.eq NewsletterBlocks.id (server.updateBlock.id i) (f r)
              = true) as -> by exact E.
      unfold f. apply block_assign_twice.
    - now rewrite E. }
  rewrite updateBlock_run, Hs, Hu. cbv zeta.
  rewrite (resolve_issue_same _ _ (tables d) (tables d')), Hp
    by now rewrite Ht.
  rewrite Ht. cbn [campaigns issues blocks tables]. rewrite Hc.
  unfold assign_where. fold g.
  rewrite (one_row_readable blocks_table _ _ _ (g e)).
  - cbn [fst snd tables with_tables]. split.
    + rewrite <- Hr. f_equal.
      rewrite (filter_map_stable _ g); [|intros r; apply Gid; reflexivity].
      rewrite (map_filter_ext _ f g _ Gf), map_map.
      apply map_ext. intros r. unfold f. apply block_assign_twice.
    + f_equal. rewrite map_map. apply map_ext. exact Gg.
  - cbn [rows blocks_table blocks].
    rewrite (find_map_stable (block_under _ _) g);
      [|intros r; apply Gid; reflexivity].
    now rewrite He.
  - cbn [rows blocks_table blocks readable].
    rewrite (filter_map_stable _ g); [|intros r; apply Gid; reflexivity].
    apply forallb_forall. intros x Hx. apply in_map_iff in Hx as (r & <- & Hx).
    apply filter_In in Hx as [Hx Fx]. apply block_under_spec in Fx as [Fx _].
    assert (E : db.eq NewsletterBlocks.id (server.updateBlock.id i) r = true)
      by now apply eq_filter_spec.
    rewrite (Gf r E).
    apply (proj1 (forallb_forall _ _) Hf). apply in_map. now apply filter_In.
Qed.

Lemma updateBlock_twice_witness :
  tables (fst (server.updateBlock.action midnight say_hi (signed_in alice)
                 after_update))
  = tables after_update.
Proof.
  exact (proj2 (updateBlock_twice midnight midnight say_hi (signed_in alice)
                  with_block after_update _ Logic.eq_refl)).
Defined.

(** ** One call, one change *)

Lemma updateCampaign_schema_name i :
  server.updateCampaign.schema i = true ->
  forall v, server.updateCampaign.name i = Some v -> v <> "".
Proof.
  unfold server.updateCampaign.schema. rewrite !andb_true_iff.
  intros H v E. rewrite E in H. cbn [z.optional] in H.
  apply min_one_nonempty. tauto.
Qed.

Lemma createBlock_schema_index i :
  server.createBlock.schema i = true ->
  z.int (coalesce (server.createBlock.orderIndex i) (Finite 1)) = true.
Proof.
  unfold server.createBlock.schema. rewrite !andb_true_iff. intros H.
  destruct (server.createBlock.orderIndex i); cbn in *; [tauto|reflexivity].
Qed.

Lemma updateBlock_schema_index i :
  server.updateBlock.schema i = true ->
  forall k, server.updateBlock.orderIndex i = Some k -> z.int k = true.
Proof.
  unfold server.updateBlock.schema. rewrite !andb_true_iff.
  intros H k E. rewrite E in H. cbn [z.optional] in H. tauto.
Qed.

(** Every call changes the tables by at most one [effect]. *)
Lemma call_effect rt context q d :
  effect (session context) (tables d) (tables (fst (call rt context q d))).
Proof.
  destruct q; cbn [call]; rewrite fmap_run; cbn [fst].
  - rewrite createCampaign_run.
    destruct (server.createCampaign.schema i) eqn:Hs; [|constructor].
    destruct (session context) as [u|]; [|constructor]. cbv zeta.
    destruct (key_taken _ _ _) eqn:K; [constructor|].
    cbn [fst tables with_tables].
    apply effect_insert_campaign with (u := u); try reflexivity.
    + now apply createCampaign_schema_name.
    + exact K.
  - rewrite updateCampaign_run.
    destruct (server.updateCampaign.schema i) eqn:Hs; [|constructor].
    destruct (session context) as [u|]; [|constructor]. cbv zeta.
    destruct (find _ _) as [c|] eqn:F; [|constructor].
    cbn [fst tables with_tables].
    apply effect_update_campaign with (u := u) (c := c);
      [reflexivity|exact F|].
    now apply updateCampaign_schema_name.
  - rewrite listCampaigns_run.
    destruct (session context); constructor.
  - rewrite createIssue_run.
    destruct (server.createIssue.schema i); [|constructor].
    destruct (session context) as [u|]; [|constructor]. cbv zeta.
    destruct (find _ _) as [c|] eqn:F; [|constructor].
    destruct (negb _); [constructor|].
    destruct (key_taken _ _ _) eqn:K; [constructor|].
    cbn [fst tables with_tables].
    now apply effect_insert_issue with (u := u) (c := c).
  - rewrite updateIssue_run.
    destruct (server.updateIssue.schema i); [|constructor].
    destruct (session context) as [u|]; [|constructor]. cbv zeta.
    destruct (find (campaign_filter _ _) _); [|constructor].
    destruct (one_row _ _ _ _) as [x|e] eqn:F; [constructor|].
    apply one_row_inr in F as [F _]. cbn [rows issues_table] in F.
    destruct (negb _); [constructor|].
    cbn [fst tables with_tables].
    now apply effect_update_issue
      with (u := u) (campaignId := server.updateIssue.campaignId i) (e := e).
  - rewrite listIssues_run.
    destruct (server.listIssues.schema i); [|constructor].
    destruct (session context) as [u|]; [|constructor]. cbv zeta.
    destruct (find _ _); constructor.
  - rewrite createBlock_run.
    destruct (server.createBlock.schema i) eqn:Hs; [|constructor].
    destruct (session context) as [u|]; [|constructor]. cbv zeta.
    destruct (resolve_issue _ _ _) as [x|p] eqn:F; [constructor|].
    apply one_row_inr in F as [F _]. cbn [rows issues_table] in F.
    destruct (find (campaign_filter _ _) _); [|constructor].
    destruct (key_taken _ _ _) eqn:K; [constructor|].
    cbn [fst tables with_tables].
    apply effect_insert_block with (u := u) (p := p);
      [reflexivity|exact F| |exact K].
    now apply createBlock_schema_index.
  - rewrite updateBlock_run.
    destruct (server.updateBlock.schema i) eqn:Hs; [|constructor].
    destruct (session context) as [u|]; [|constructor]. cbv zeta.
    destruct (resolve_issue _ _ _) as [x|p] eqn:F; [constructor|].
    apply one_row_inr in F as [F _]. cbn [rows issues_table] in F.
    destruct (find (campaign_filter _ _) _); [|constructor].
    destruct (one_row _ _ _ _) as [x|e] eqn:G; [constructor|].
    apply one_row_inr in G as [G _]. cbn [rows blocks_table] in G.
    cbn [fst tables with_tables].
    apply effect_update_block
      with (u := u) (issueId := server.updateBlock.issueId i) (p := p) (e := e);
      [reflexivity|exact F|exact G|].
    now apply updateBlock_schema_index.
  - rewrite deleteBlock_run.
    destruct (server.deleteBlock.schema i); [|constructor].
    destruct (session context) as [u|]; [|constructor]. cbv zeta.
    destruct (resolve_issue _ _ _) as [x|p] eqn:F; [constructor|].
    apply one_row_inr in F as [F _]. cbn [rows issues_table] in F.
    destruct (find (campaign_filter _ _) _); [|constructor].
    destruct (_ =? 0)%nat; cbn [fst tables with_tables];
      now apply effect_delete_block with (u := u) (p := p).
  - rewrite listBlocks_run.
    destruct (server.listBlocks.schema i); [|constructor].
    destruct (session context) as [u|]; [|constructor]. cbv zeta.
    destruct (resolve_issue _ _ _); [constructor|].
    destruct (find (campaign_filter _ _) _); constructor.
Qed.

Lemma filter_everything {R} (l : list R) : filter (fun _ => true) l = l.
Proof. induction l as [|x l IH]; cbn; [reflexivity|now rewrite IH]. Qed.

(** ** What no call does *)

(** X14. No call removes a campaign or an issue, moves a row to another
    owner or parent, or changes [createdAt].  After any call the campaigns
    that were there are there, in place, with the id, [userId] and
    [createdAt] they had, followed by at most one new campaign; the same
    for issues, with [campaignId] as well; and the blocks are blocks that
    were there, with the id, [issueId] and [createdAt] they had, followed by
    at most one new block. *)
Theorem identities_are_kept (rt : Runtime) (context : ActionAPIContext)
  (q : Request) (d : Database) :
  (exists more,
     map campaign_identity (campaigns (tables (fst (call rt context q d))))
     = map campaign_identity (campaigns (tables d)) ++ more
     /\ (length more <= 1)%nat)
  /\ (exists more,
        map issue_identity (issues (tables (fst (call rt context q d))))
        = map issue_identity (issues (tables d)) ++ more
        /\ (length more <= 1)%nat)
  /\ (exists kept more,
        map block_identity (blocks (tables (fst (call rt context q d))))
        = map block_identity (filter kept (blocks (tables d))) ++ more
        /\ (length more <= 1)%nat).
Proof.
  assert (Same : forall {R A} (f : R -> A) (l : list R),
            exists more, map f l = map f l ++ more /\ (length more <= 1)%nat).
  { intros R A f l. exists []. rewrite app_nil_r. cbn. auto. }
  assert (Same' : forall {A} (f : NewsletterBlocks.row -> A) l,
            exists kept more, map f l = map f (filter kept l) ++ more
                              /\ (length more <= 1)%nat).
  { intros A f l. exists (fun _ => true), [].
    rewrite filter_everything, app_nil_r. cbn. auto. }
  destruct (call_effect rt context q d); cbn [campaigns issues blocks];
    conjuncts; try apply Same; try apply Same'.
  - exists [campaign_identity c]. now rewrite map_app.
  - exists []. rewrite app_nil_r, assign_where_column; cbn; auto.
  - exists [issue_identity i]. now rewrite map_app.
  - exists []. rewrite app_nil_r, assign_where_column; cbn; auto.
  - exists (fun _ => true), [block_identity b].
    now rewrite filter_everything, map_app.
  - exists (fun _ => true), [].
    rewrite filter_everything, app_nil_r, assign_where_column; cbn; auto.
  - eexists _, []. rewrite app_nil_r. cbn. auto.
Qed.

(** ** More that holds in every database the actions produce *)

Lemma effect_keeps_names who t t' :
  effect who t t' ->
  (forall c, In c (campaigns t) -> NewsletterCampaigns.name c <> "") ->
  forall c, In c (campaigns t') -> NewsletterCampaigns.name c <> "".
Proof.
  intros E N. destruct E; cbn [campaigns]; try exact N.
  - intros c' Hc. apply in_app_or in Hc as [Hc|[<-|[]]]; [now apply N|assumption].
  - intros c' Hc. apply assign_where_in in Hc as (b & Hb & [->| ->]).
    + now apply N.
    + cbn. destruct (NewsletterCampaigns.set_name s) as [v|] eqn:E; cbn.
      * now apply (H1 v).
      * now apply N.
Qed.

Lemma effect_keeps_integer_index who t t' :
  effect who t t' ->
  (forall b, In b (blocks t) -> z.int (NewsletterBlocks.orderIndex b) = true) ->
  forall b, In b (blocks t') -> z.int (NewsletterBlocks.orderIndex b) = true.
Proof.
  intros E N. destruct E; cbn [blocks]; try exact N.
  - intros b' Hb. apply in_app_or in Hb as [Hb|[<-|[]]]; [now apply N|assumption].
  - intros b' Hb. apply assign_where_in in Hb as (b & Hb & [->| ->]).
    + now apply N.
    + cbn. destruct (NewsletterBlocks.set_orderIndex s) as [k|] eqn:E; cbn.
      * now apply (H2 k).
      * now apply N.
  - intros b' Hb. apply filter_In in Hb as [Hb _]. now apply N.
Qed.

(** X15. In every database the actions produce from the empty one, every
    campaign has a name that is not empty: [createCampaign] asks for one,
    and [updateCampaign] takes a name only if it is not empty. *)
Theorem reachable_campaigns_are_named (d : Database)
  (c : NewsletterCampaigns.row) :
  reachable d -> In c (campaigns (tables d)) ->
  NewsletterCampaigns.name c <> "".
Proof.
  intros H. revert c. induction H as [|rt context q d _ IH].
  - intros c [].
  - exact (effect_keeps_names _ _ _ (call_effect rt context q d) IH).
Qed.

Lemma reachable_campaigns_are_named_witness :
  NewsletterCampaigns.name campaign_one <> "".
Proof.
  exact (reachable_campaigns_are_named with_block campaign_one
           with_block_reachable (or_introl Logic.eq_refl)).
Defined.

(** X16. In every database the actions produce from the empty one, the
    [orderIndex] of every block is an integer: the schemas of [createBlock]
    and [updateBlock] take no other number, and the default is 1. *)
Theorem reachable_orderIndex_is_integer (d : Database)
  (b : NewsletterBlocks.row) :
  reachable d -> In b (blocks (tables d)) ->
  z.int (NewsletterBlocks.orderIndex b) = true.
Proof.
  intros H. revert b. induction H as [|rt context q d _ IH].
  - intros b [].
  - exact (effect_keeps_integer_index _ _ _ (call_effect rt context q d) IH).
Qed.

Lemma reachable_orderIndex_is_integer_witness :
  z.int (NewsletterBlocks.orderIndex
           (new_block (runtime "b1" 30%Z) plain_block)) = true.
Proof.
  exact (reachable_orderIndex_is_integer with_block
           (new_block (runtime "b1" 30%Z) plain_block)
           with_block_reachable (or_introl Logic.eq_refl)).
Defined.

(** ** Rows of other users *)

Lemma filter_app_out {R} (p : R -> bool) (l : list R) (x : R) :
  p x = false -> filter p (l ++ [x]) = filter p l.
Proof.
  intros H. rewrite filter_app. cbn. rewrite H. apply app_nil_r.
Qed.

Lemma filter_assign_where_out {R} (p : R -> bool) (pk : R -> string)
  (key : string) (f : R -> R) (l : list R) :
  (forall r, In r l -> pk r = key -> p r = false) ->
  (forall r, p (f r) = p r) ->
  filter p (assign_where pk key f l) = filter p l.
Proof.
  intros Out Same. induction l as [|x l IH]; cbn; [reflexivity|].
  fold (assign_where pk key f l). rewrite IH.
  - destruct (db.eq pk key x) eqn:E; [|reflexivity].
    apply eq_filter_spec in E. rewrite Same.
    now rewrite (Out x (or_introl Logic.eq_refl) E).
  - intros r Hr. apply Out. now right.
Qed.

Lemma filter_deleted_out {R} (p w : R -> bool) (l : list R) :
  (forall r, In r l -> w r = true -> p r = false) ->
  filter p (filter (fun r => negb (w r)) l) = filter p l.
Proof.
  intros Out. induction l as [|x l IH]; cbn; [reflexivity|].
  rewrite <- IH by (intros r Hr; apply Out; now right).
  destruct (w x) eqn:E; cbn; [|reflexivity].
  now rewrite (Out x (or_introl Logic.eq_refl) E).
Qed.

Lemma own_issue_block (userId : string) (t : Tables)
  (b : NewsletterBlocks.row) (p : NewsletterIssues.row) :
  find (issue_filter (NewsletterBlocks.issueId b) userId) (issues t) = Some p ->
  foreign_block userId t b = false.
Proof.
  intros F. unfold foreign_block. apply negb_false_iff, existsb_exists.
  exists p. now apply find_some in F.
Qed.

(** X17. In a consistent database a call never touches what belongs to
    somebody else.  Whatever a signed-in user calls, with whatever input,
    the campaigns and the issues whose [userId] is another user, and the
    blocks whose issue is not an issue of the caller, are after the call
    exactly what they were.  (The update statements filter by id alone; it
    is the uniqueness of the ids that makes them hit only the row the
    resolver had checked.) *)
Theorem rows_of_others_untouched (rt : Runtime) (context : ActionAPIContext)
  (q : Request) (d : Database) (u : App.User) :
  consistent (tables d) ->
  session context = Some u ->
  filter (foreign_campaign (App.id u))
         (campaigns (tables (fst (call rt context q d))))
  = filter (foreign_campaign (App.id u)) (campaigns (tables d))
  /\ filter (foreign_issue (App.id u))
            (issues (tables (fst (call rt context q d))))
     = filter (foreign_issue (App.id u)) (issues (tables d))
  /\ filter (foreign_block (App.id u) (tables d))
            (blocks (tables (fst (call rt context q d))))
     = filter (foreign_block (App.id u) (tables d)) (blocks (tables d)).
Proof.
  intros C Hu. pose proof (call_effect rt context q d) as E.
  rewrite Hu in E. destruct C as [Pc Pi Pb _ _].
  destruct E as [|u' c Hw Ho _ _|u' key s c Hw F _|u' i c Hw _ Ho _
                 |u' key cid s e Hw F|u' b p Hw F _ _
                 |u' key iid s p e Hw F G _|u' key iid p Hw F];
    try (injection Hw as <-); cbn [campaigns issues blocks];
    conjuncts; try reflexivity.
  - apply filter_app_out. unfold foreign_campaign.
    apply negb_false_iff, eq_filter_spec. exact Ho.
  - apply filter_assign_where_out; [|reflexivity].
    intros r Hr Hk. pose proof (find_some _ _ F) as [Hc Hf].
    apply campaign_filter_spec in Hf as [Hid Hown].
    assert (r = c) as ->
      by (apply (primary_key_decides NewsletterCampaigns.id _ _ _ Pc Hr Hc);
          congruence).
    unfold foreign_campaign. now apply negb_false_iff, eq_filter_spec.
  - apply filter_app_out. unfold foreign_issue.
    apply negb_false_iff, eq_filter_spec. exact Ho.
  - apply filter_assign_where_out; [|reflexivity].
    intros r Hr Hk. pose proof (find_some _ _ F) as [He Hf].
    apply issue_under_spec in Hf as (Hid & _ & Hown).
    assert (r = e) as ->
      by (apply (primary_key_decides NewsletterIssues.id _ _ _ Pi Hr He);
          congruence).
    unfold foreign_issue. now apply negb_false_iff, eq_filter_spec.
  - apply filter_app_out. now apply own_issue_block with (p := p).
  - apply filter_assign_where_out; [|reflexivity].
    intros r Hr Hk. pose proof (find_some _ _ G) as [He Hf].
    apply block_under_spec in Hf as (Hid & Hiss).
    assert (r = e) as ->
      by (apply (primary_key_decides NewsletterBlocks.id _ _ _ Pb Hr He);
          congruence).
    apply own_issue_block with (p := p). now rewrite Hiss.
  - apply filter_deleted_out. intros r _ Hw.
    apply block_under_spec in Hw as [_ Hiss].
    apply own_issue_block with (p := p). now rewrite Hiss.
Qed.

(** Alice renames her campaign in a database where Bob has one too. *)
Lemma rows_of_others_untouched_witness :
  filter (foreign_campaign "alice")
         (campaigns (tables (fst (call midnight (signed_in alice)
                                    (UpdateCampaign rename_campaign)
                                    with_bob))))
  = filter (foreign_campaign "alice") (campaigns (tables with_bob)).
Proof.
  refine (proj1 (rows_of_others_untouched midnight (signed_in alice)
                   (UpdateCampaign rename_campaign) with_bob alice
                   (reachable_consistent _ _) Logic.eq_refl)).
  apply reachable_call. exact with_block_reachable.
Defined.

(** ** The subject line of an issue *)



(** ** Round trips to the database *)

Lemma call_journal rt context q d :
  exists l,
    journal (fst (call rt context q d)) = journal d ++ l
    /\ l = filter is_select l ++ filter (fun s => negb (is_select s)) l
    /\ (length (filter is_select l) <= 3)%nat
    /\ (length (filter (fun s => negb (is_select s)) l) <= 1)%nat
    /\ (filter (fun s => negb (is_select s)) l = [] ->
        tables (fst (call rt context q d)) = tables d).
Proof.
  assert (Nil : forall x y : Database,
            tables y = tables x -> journal y = journal x ->
            exists l,
              journal y = journal x ++ l
              /\ l = filter is_select l
                     ++ filter (fun s => negb (is_select s)) l
              /\ (length (filter is_select l) <= 3)%nat
              /\ (length (filter (fun s => negb (is_select s)) l) <= 1)%nat
              /\ (filter (fun s => negb (is_select s)) l = [] ->
                  tables y = tables x)).
  { intros x y Ht Hj. exists []. rewrite app_nil_r. cbn.
    conjuncts; auto with arith. }
  assert (Cons : forall (x y : Database) l,
            journal y = journal x ++ l ->
            l = filter is_select l ++ filter (fun s => negb (is_select s)) l ->
            (length (filter is_select l) <= 3)%nat ->
            (length (filter (fun s => negb (is_select s)) l) <= 1)%nat ->
            (filter (fun s => negb (is_select s)) l = [] ->
             tables y = tables x) ->
            exists l,
              journal y = journal x ++ l
              /\ l = filter is_select l
                     ++ filter (fun s => negb (is_select s)) l
              /\ (length (filter is_select l) <= 3)%nat
              /\ (length (filter (fun s => negb (is_select s)) l) <= 1)%nat
              /\ (filter (fun s => negb (is_select s)) l = [] ->
                  tables y = tables x)).
  { intros x y l. exists l. now conjuncts. }
  destruct q; cbn [call]; rewrite fmap_run; cbn [fst];
    [rewrite createCampaign_run|rewrite updateCampaign_run
    |rewrite listCampaigns_run|rewrite createIssue_run
    |rewrite updateIssue_run|rewrite listIssues_run
    |rewrite createBlock_run|rewrite updateBlock_run
    |rewrite deleteBlock_run|rewrite listBlocks_run];
    repeat (cbv zeta; match goal with
      | |- context [if ?b then _ else _] => destruct b
      | |- context [match session ?c with _ => _ end] => destruct (session c)
      | |- context [match find ?p ?l with _ => _ end] => destruct (find p l)
      | |- context [match resolve_issue ?a ?b ?t with _ => _ end] =>
          destruct (resolve_issue a b t)
      | |- context [match one_row ?T ?w ?m ?t with _ => _ end] =>
          destruct (one_row T w m t)
      end);
    cbv zeta; cbn [fst];
    first
      [ apply Nil; reflexivity
      | eapply Cons;
        [ cbn [journal issue_stmt with_tables]; rewrite <- ?app_assoc;
          reflexivity
        | reflexivity
        | cbn; auto with arith
        | cbn; auto with arith
        | cbn; first [discriminate | intros _; reflexivity] ] ].
Qed.

(** X19. Every call goes to the database for at most three reads and
    then at most one write, in that order, and a call that wrote nothing
    left the tables as they were. *)
Theorem reads_then_one_write (rt : Runtime) (context : ActionAPIContext)
  (q : Request) (d : Database) :
  exists reads writes,
    journal (fst (call rt context q d)) = journal d ++ reads ++ writes
    /\ forallb is_select reads = true
    /\ forallb (fun s => negb (is_select s)) writes = true
    /\ (length reads <= 3)%nat
    /\ (length writes <= 1)%nat
    /\ (writes = [] -> tables (fst (call rt context q d)) = tables d).
Proof.
  destruct (call_journal rt context q d) as (l & J & S & R & W & T).
  exists (filter is_select l), (filter (fun s => negb (is_select s)) l).
  rewrite <- S. conjuncts; try assumption.
  - apply forallb_forall. intros s Hs. now apply filter_In in Hs.
  - apply forallb_forall. intros s Hs. now apply filter_In in Hs.
Qed.

(** ** The resolvers in a consistent database *)



(** ** From an issue to its blocks *)



